(** * image-compressor: the batch compression pipeline of [src/index.js]

    The repository is a command-line driver around an image codec.  Its
    source comes in two variants of the same file:

    - the JPEG-only variant (lines 1-149), which re-encodes every discovered
      file as JPEG under its original name;
    - the multi-format variant (lines 150-345), which takes a target
      extension, picks the encoder from it and renames the output.

    Both are embedded below, in a state-and-exception monad over an abstract
    platform (file system, codec, clock) and a trace of the observable calls
    (console, spinner, progress bar, codec, directory creation).  JavaScript
    numbers are IEEE-754 binary64 values, modelled by Rocq's primitive
    floats.

    The file has the library functions the program calls ([Js], [Path],
    [Number]), the platform and the monad, the two variants, the vocabulary
    of the statements and a small concrete platform; then the facts: how a
    call, the loop and a whole run behave, and the properties of the
    specification, each marked with its number.  The last part has further
    properties of the code, marked X1, X2, and so on. *)

From Stdlib Require Import ZArith Floats Ascii String List Bool Lia.
From stdpp Require Import base tactics option list strings pretty.

Local Open Scope string_scope.
Local Open Scope list_scope.
Local Open Scope Z_scope.

(** ** JavaScript strings

    A string is modelled by its UTF-8 bytes.  The only characters the program
    inspects are ASCII (the dot, the slash and the letters of the four
    extensions), and an ASCII byte never occurs inside a multi-byte
    sequence. *)

Module Js.

Definition is_upper (c : ascii) : bool :=
  let n := nat_of_ascii c in (65 <=? n)%nat && (n <=? 90)%nat.

Definition is_lower (c : ascii) : bool :=
  let n := nat_of_ascii c in (97 <=? n)%nat && (n <=? 122)%nat.

Definition lower_char (c : ascii) : ascii :=
  if is_upper c then ascii_of_nat (nat_of_ascii c + 32) else c.

(** [Canonicalize] of a regular expression with the [i] flag and without the
    [u] flag: the character is upper-cased, except that a non-ASCII character
    is never mapped to an ASCII one. *)
Definition canonicalize (c : ascii) : ascii :=
  if is_lower c then ascii_of_nat (nat_of_ascii c - 32) else c.

(** [String.prototype.toLowerCase].  No character outside ASCII lower-cases to
    one of the letters of [jpeg], [jpg], [webp] or [png] (the Kelvin sign and
    the dotted capital I map to [k] and [i]), so on the comparisons the
    program makes the byte-wise function agrees with the Unicode one. *)
Fixpoint toLowerCase (s : string) : string :=
  match s with
  | EmptyString => EmptyString
  | String c s' => String (lower_char c) (toLowerCase s')
  end.

(** The pattern characters of a literal, matched against the whole rest of
    the input: this is a literal followed by [$]. *)
Fixpoint matches_to_end (pat s : string) : bool :=
  match pat, s with
  | EmptyString, EmptyString => true
  | String p pat', String c s' =>
      bool_decide (canonicalize p = canonicalize c) && matches_to_end pat' s'
  | _, _ => false
  end.

(** [RegExp.prototype.test] for a pattern [lit$]: some position of the input
    starts a match. *)
Fixpoint test_literal_at_end (pat s : string) : bool :=
  matches_to_end pat s ||
  match s with
  | EmptyString => false
  | String _ s' => test_literal_at_end pat s'
  end.

(** The decimal digits of a non-negative integer ([Number::toString] of an
    array length). *)
Definition nat_to_string (n : nat) : string := pretty n.

End Js.

(** ** [path] (POSIX flavour) *)

Module Path.

Definition slash : ascii := "/"%char.
Definition dot : ascii := "."%char.

(** The segments between slashes. *)
Fixpoint split_go (cur : string) (s : string) : list string :=
  match s with
  | EmptyString => [String.rev cur]
  | String c s' =>
      if bool_decide (c = slash) then String.rev cur :: split_go EmptyString s'
      else split_go (String c cur) s'
  end.
Definition split (s : string) : list string := split_go EmptyString s.

Fixpoint join_segments (l : list string) : string :=
  match l with
  | [] => EmptyString
  | [x] => x
  | x :: l' => x +:+ "/" +:+ join_segments l'
  end.

(** [normalizeString]: the stack of segments kept so far is held reversed. *)
Fixpoint normalize_segments (allowAboveRoot : bool) (stack : list string)
    (segs : list string) : list string :=
  match segs with
  | [] => rev stack
  | seg :: segs' =>
      if bool_decide (seg = "") || bool_decide (seg = ".") then
        normalize_segments allowAboveRoot stack segs'
      else if bool_decide (seg = "..") then
        match stack with
        | top :: below =>
            if bool_decide (top = "..") then
              normalize_segments allowAboveRoot
                (if allowAboveRoot then ".." :: stack else stack) segs'
            else normalize_segments allowAboveRoot below segs'
        | [] =>
            normalize_segments allowAboveRoot
              (if allowAboveRoot then [".."] else []) segs'
        end
      else normalize_segments allowAboveRoot (seg :: stack) segs'
  end.

Definition starts_with_slash (s : string) : bool :=
  match s with String c _ => bool_decide (c = slash) | EmptyString => false end.

Definition ends_with_slash (s : string) : bool :=
  starts_with_slash (String.rev s).

(** [path.normalize] *)
Definition normalize (p : string) : string :=
  if bool_decide (p = "") then "."
  else
    let isAbsolute := starts_with_slash p in
    let trailingSeparator := ends_with_slash p in
    let body := join_segments (normalize_segments (negb isAbsolute) [] (split p)) in
    if bool_decide (body = "") then
      if isAbsolute then "/" else if trailingSeparator then "./" else "."
    else
      let body := if trailingSeparator then body +:+ "/" else body in
      if isAbsolute then "/" +:+ body else body.

(** [path.join] of two arguments: the non-empty arguments are joined by a
    slash and the result is normalized. *)
Definition join (a b : string) : string :=
  if bool_decide (a = "") then normalize b
  else if bool_decide (b = "") then normalize a
  else normalize (a +:+ "/" +:+ b).

(** The last segment of a path, trailing slashes dropped. *)
Definition base (p : string) : string :=
  match filter (fun seg => seg <> "") (rev (split p)) with
  | seg :: _ => seg
  | [] => ""
  end.

(** The part of a segment before its last dot, when it has a dot. *)
Fixpoint before_last_dot (s : string) : option string :=
  match s with
  | EmptyString => None
  | String c rest =>
      match before_last_dot rest with
      | Some pre => Some (String c pre)
      | None => if bool_decide (c = dot) then Some EmptyString else None
      end
  end.

(** [path.parse(p).name]: the base without its extension.  A base that has no
    dot, whose only dot is its first character, or that is [..] has no
    extension and is its own name. *)
Definition parse_name (p : string) : string :=
  let b := base p in
  match before_last_dot b with
  | None => b
  | Some pre =>
      if bool_decide (pre = "") || bool_decide (b = "..") then b else pre
  end.

End Path.

(** ** Numbers

    A JavaScript number is a binary64 float.  [Prim2SF] exposes sign,
    mantissa and exponent, on which the decimal output is computed exactly. *)

Module Number.

(** The number a byte count is read as.  A file size is below [2^63]; one
    above [2^53] is rounded to the nearest double. *)
Definition of_size (n : Z) : float := PrimFloat.of_uint63 (Uint63.of_Z n).

(** The integer nearest to [m * 2^e * 100]; of two nearest, the larger. *)
Definition nearest_hundredths (m : positive) (e : Z) : Z :=
  if 0 <=? e then Z.pos m * 2 ^ e * 100
  else (2 * (Z.pos m * 100) + 2 ^ (- e)) / 2 ^ (1 - e).

Fixpoint zeros (k : nat) : string :=
  match k with O => "" | S k' => String "0"%char (zeros k') end.

Fixpoint take (k : nat) (s : string) : string :=
  match k, s with
  | S k', String c s' => String c (take k' s')
  | _, _ => ""
  end.

Fixpoint drop (k : nat) (s : string) : string :=
  match k, s with
  | S k', String _ s' => drop k' s'
  | _, _ => s
  end.

(** Steps 10-11 of [Number.prototype.toFixed] for two fraction digits. *)
Definition two_fraction_digits (n : Z) : string :=
  let m := pretty (Z.to_N n) in
  let k := String.length m in
  let m := if (k <=? 2)%nat then zeros (3 - k) +:+ m else m in
  let k := String.length m in
  take (k - 2) m +:+ "." +:+ drop (k - 2) m.

(** Is [m * 2^e >= 10^21]? *)
Definition at_least_1e21 (m : positive) (e : Z) : bool :=
  if 0 <=? e then 10 ^ 21 <=? Z.pos m * 2 ^ e
  else 10 ^ 21 * 2 ^ (- e) <=? Z.pos m.

Definition ceil_div (a b : Z) : Z := - ((- a) / b).

(** The multiple [s * 10^p] nearest to [m * 2^e] among those that round to
    this double, if there is one.  The doubles that round to it lie between
    the midpoints to its neighbours, the midpoints included when the mantissa
    is even. *)
Definition candidate (m : positive) (e : Z) (p : Z) : option Z :=
  let x := Z.pos m * 2 ^ e in
  let up := 2 ^ (e - 1) in
  let down := if Z.pos m =? 2 ^ 52 then 2 ^ (e - 2) else 2 ^ (e - 1) in
  let closed := Z.even (Z.pos m) in
  let d := 10 ^ p in
  let lo := x - down in
  let hi := x + up in
  let slo := if closed then ceil_div lo d else lo / d + 1 in
  let shi := if closed then hi / d else ceil_div hi d - 1 in
  if slo <=? shi then
    let q := x / d in
    let r := x mod d in
    let near :=
      if 2 * r <? d then q
      else if d <? 2 * r then q + 1
      else if Z.even q then q else q + 1 in
    Some (Z.max slo (Z.min shi near))
  else None.

(** The candidate with the largest power of ten, hence the fewest digits. *)
Fixpoint shortest (m : positive) (e : Z) (p : nat) : Z * Z :=
  match candidate m e (Z.of_nat p) with
  | Some s => (s, Z.of_nat p)
  | None =>
      match p with
      | O => (Z.pos m * 2 ^ e, 0)
      | S p' => shortest m e p'
      end
  end.

(** [Number::toString] for a finite value [m * 2^e >= 10^21], which is an
    integer: the shortest decimal that reads back as the same double, printed
    in exponent form. *)
Definition exponent_form (m : positive) (e : Z) : string :=
  let '(s, p) := shortest m e 330 in
  let digits := pretty (Z.to_N s) in
  let n := Z.of_nat (String.length digits) + p in
  let mantissa :=
    match digits with
    | String d EmptyString => digits
    | String d rest => String d ("." +:+ rest)
    | EmptyString => digits
    end in
  mantissa +:+ "e+" +:+ pretty (Z.to_N (n - 1)).

(** [Number.prototype.toFixed(2)]: a number that is not finite prints as
    its name; otherwise the sign, then the exponent form from [10^21] on and
    the nearest hundredth below it. *)
Definition toFixed2 (x : float) : string :=
  match Prim2SF x with
  | S754_nan => "NaN"
  | S754_infinity s => if s then "-Infinity" else "Infinity"
  | S754_zero _ => "0.00"
  | S754_finite s m e =>
      (if s then "-" else "") +:+
      (if at_least_1e21 m e then exponent_form m e
       else two_fraction_digits (nearest_hundredths m e))
  end.

End Number.

(** ** The platform

    What the program calls but does not define: the file system ([fs-extra]),
    the codec ([sharp]) and the clock ([perf_hooks]).  Each call may fail with
    an error value, and the calls that write may change the world even when
    they fail. *)

Record error := Error { message : string }.

(** The output options set on a [sharp] instance. *)
Inductive Encoder :=
| JpegOptions (quality : float) (mozjpeg : bool)
| WebpOptions (quality : float)
| PngOptions (quality : float).

Record Sharp := { input : string; encoder : option Encoder }.

Class Platform := {
  World : Type;
  (** [fs.readdir(dir)]: the entry names, in listing order *)
  readdir : string -> World -> error + list string;
  (** [fs.statSync(path).size], in bytes *)
  stat_size : string -> World -> error + Z;
  (** [fs.ensureDir(dir)] *)
  ensureDir : string -> World -> (error + unit) * World;
  (** [image.jpeg(options)], [image.webp(options)], [image.png(options)]:
      the options are checked when they are set *)
  check_options : Encoder -> error + unit;
  (** [image.toFile(outputPath)] *)
  toFile : Sharp -> string -> World -> (error + unit) * World;
  (** [performance.now()] *)
  now : World -> float * World
}.

(** The observable calls, in the order they are made. *)
Inductive event :=
| ConsoleLog (line : string)
| ConsoleError (line : string) (err : error)
| EnsureDir (dir : string)
| ToFile (image : Sharp) (outputPath : string)
| SpinnerStart (text : string)
| SpinnerText (text : string)
| SpinnerSucceed (text : string)
| BarStart (total value : nat)
| BarUpdate (value : nat)
| BarStop.

Record state `{Platform} := State { world : World; trace : list event }.
Arguments State {_} _ _.

(** A computation runs from a state to a returned value or a thrown error,
    and a new state; what was done before a throw stays done. *)
Definition M `{Platform} (A : Type) : Type := state -> (error + A) * state.

Section Monad.
Context `{Platform}.

Definition ret {A} (a : A) : M A := fun s => (inr a, s).

Definition bind {A B} (c : M A) (k : A -> M B) : M B :=
  fun s =>
    match c s with
    | (inr a, s') => k a s'
    | (inl e, s') => (inl e, s')
    end.

Definition throw {A} (e : error) : M A := fun s => (inl e, s).

(** [try { body } catch (error) { handler }] *)
Definition try_catch {A} (body : M A) (handler : error -> M A) : M A :=
  fun s =>
    match body s with
    | (inr a, s') => (inr a, s')
    | (inl e, s') => handler e s'
    end.

Definition emit (e : event) : M unit :=
  fun s => (inr tt, State (world s) (trace s ++ [e])).

(** A call that reads the world. *)
Definition read {A} (f : World -> error + A) : M A :=
  fun s => (f (world s), s).

(** A call that may change the world. *)
Definition act {A} (f : World -> (error + A) * World) : M A :=
  fun s => let '(r, w) := f (world s) in (r, State w (trace s)).

Definition console_log (line : string) : M unit := emit (ConsoleLog line).
Definition console_error (line : string) (err : error) : M unit :=
  emit (ConsoleError line err).
Definition fs_readdir (dir : string) : M (list string) := read (readdir dir).
Definition fs_statSync_size (path : string) : M Z := read (stat_size path).
Definition fs_ensureDir (dir : string) : M unit :=
  bind (emit (EnsureDir dir)) (fun _ => act (ensureDir dir)).
Definition sharp_toFile (image : Sharp) (outputPath : string) : M unit :=
  bind (emit (ToFile image outputPath)) (fun _ => act (toFile image outputPath)).
Definition performance_now : M float :=
  act (fun w => let '(t, w') := now w in (inr t, w')).
End Monad.

Declare Scope js_scope.
Delimit Scope js_scope with js.
Notation "x <- c ;; k" := (bind c (fun x => k))
  (at level 100, c at next level, k at level 200, right associativity) : js_scope.
Notation "c ;; k" := (bind c (fun _ => k))
  (at level 100, k at level 200, right associativity) : js_scope.

(** [chalk] styles a string with colour escapes, and with none when colour is
    off; layout and content are the same either way, and the escapes are left
    out here. *)
Definition chalk (s : string) : string := s.

(** [sharp(inputPath)] and the methods that set the output format: they
    throw on options the codec refuses and give the instance with the options
    set otherwise. *)
Definition sharp (inputPath : string) : Sharp :=
  {| input := inputPath; encoder := None |}.
Definition with_encoder (e : Encoder) (image : Sharp) : Sharp :=
  {| input := input image; encoder := Some e |}.
Definition sharp_format `{Platform} (e : Encoder) (image : Sharp) : M Sharp :=
  bind (read (fun _ => check_options e)) (fun _ => ret (with_encoder e image)).

Record CompressionResult := {
  originalSize : float;
  compressedSize : float;
  savedSize : float
}.

(** The recognized extensions: [/\.(jpg|jpeg|png|webp)$/i]. *)
Definition image_pattern (file : string) : bool :=
  existsb (fun alt => Js.test_literal_at_end ("." +:+ alt) file)
    ["jpg"; "jpeg"; "png"; "webp"].

Section Shared.
Context `{Platform}.
Local Open Scope js_scope.

(** [getFileSizeInMB] (lines 14-17 and 163-166) *)
Definition getFileSizeInMB (filePath : string) : M float :=
  size <- fs_statSync_size filePath ;;
  ret (Number.of_size size / (1024 * 1024))%float.

(** The per-file line (lines 82-87 and 266-271). *)
Definition fileInfo (file : string) (result : CompressionResult) : string :=
  chalk file +:+ ": " +:+ chalk (Number.toFixed2 (originalSize result))
  +:+ " MB -> " +:+ chalk (Number.toFixed2 (compressedSize result))
  +:+ " MB (" +:+
  chalk ("saved " +:+ Number.toFixed2 (savedSize result) +:+ " MB") +:+ ")".
End Shared.

(** ** The JPEG-only variant (lines 1-149) *)

Module JpegOnly.
Section Program.
Context `{Platform}.
Local Open Scope js_scope.

(** [compressImage] (lines 20-33) *)
Definition compressImage (inputPath outputPath : string)
    (quality : option float) : M (option CompressionResult) :=
  let quality := default 80%float quality in
  try_catch
    (originalSize <- getFileSizeInMB inputPath ;;
     image <- sharp_format (JpegOptions quality true) (sharp inputPath) ;;
     sharp_toFile image outputPath ;;
     compressedSize <- getFileSizeInMB outputPath ;;
     let savedSize := (originalSize - compressedSize)%float in
     ret (Some {| originalSize := originalSize;
                  compressedSize := compressedSize;
                  savedSize := savedSize |}))
    (fun error =>
       console_error (chalk ("Error compressing " +:+ inputPath +:+ ":")) error ;;
       ret None).

(** The loop over [imageFiles.entries()] (lines 71-91); the two running
    totals are passed along and returned. *)
Fixpoint for_imageFiles (sourceDir exportDir : string) (quality : float)
    (index : nat) (imageFiles : list string)
    (totalSavedSize totalOriginalSize : float) : M (float * float) :=
  match imageFiles with
  | [] => ret (totalSavedSize, totalOriginalSize)
  | file :: rest =>
      let inputPath := Path.join sourceDir file in
      let outputPath := Path.join exportDir file in
      emit (SpinnerText ("Compressing " +:+ file +:+ "...")) ;;
      result <- compressImage inputPath outputPath (Some quality) ;;
      totals <-
        match result with
        | Some result =>
            let totalOriginalSize :=
              (totalOriginalSize + originalSize result)%float in
            let totalSavedSize :=
              (totalSavedSize + savedSize result)%float in
            console_log (fileInfo file result) ;;
            ret (totalSavedSize, totalOriginalSize)
        | None => ret (totalSavedSize, totalOriginalSize)
        end ;;
      emit (BarUpdate (index + 1)) ;;
      for_imageFiles sourceDir exportDir quality (S index) rest
        (fst totals) (snd totals)
  end.

(** [compressImagesInDirectory] (lines 36-120) *)
Definition compressImagesInDirectory (sourceDir exportDir : string)
    (quality : float) : M unit :=
  try_catch
    (files <- fs_readdir sourceDir ;;
     let imageFiles := List.filter image_pattern files in
     if (length imageFiles =? 0)%nat then
       console_log (chalk "No image files found in the specified directory.")
     else
       fs_ensureDir exportDir ;;
       emit (SpinnerStart "Starting compression...") ;;
       startTime <- performance_now ;;
       let totalSavedSize := 0%float in
       let totalOriginalSize := 0%float in
       emit (BarStart (length imageFiles) 0) ;;
       totals <- for_imageFiles sourceDir exportDir quality 0 imageFiles
                   totalSavedSize totalOriginalSize ;;
       let totalSavedSize := fst totals in
       let totalOriginalSize := snd totals in
       emit BarStop ;;
       emit (SpinnerSucceed "Compression completed!") ;;
       endTime <- performance_now ;;
       let timeTaken := Number.toFixed2 ((endTime - startTime) / 1000)%float in
       let totalSpaceSavedPercentage :=
         Number.toFixed2 (totalSavedSize / totalOriginalSize * 100)%float in
       console_log (chalk (String "010"%char "Summary:")) ;;
       console_log (chalk "Total Images:" +:+ " "
                    +:+ Js.nat_to_string (length imageFiles)) ;;
       console_log (chalk "Total Original Size:" +:+ " "
                    +:+ Number.toFixed2 totalOriginalSize +:+ " MB") ;;
       console_log (chalk "Total Saved Size:" +:+ " "
                    +:+ Number.toFixed2 totalSavedSize +:+ " MB ("
                    +:+ chalk totalSpaceSavedPercentage +:+ "% space saved)") ;;
       console_log (chalk "Time Taken:" +:+ " " +:+ timeTaken +:+ " seconds"))
    (fun error => console_error (chalk "Error processing directory:") error).
End Program.
End JpegOnly.

(** ** The multi-format variant (lines 150-345) *)

Module MultiFormat.
Section Program.
Context `{Platform}.
Local Open Scope js_scope.

(** The [switch] on [targetExt.toLowerCase()] (lines 180-193). *)
Definition select_encoder (quality : float) (targetExt : string)
    (sharpInstance : Sharp) : M Sharp :=
  let ext := Js.toLowerCase targetExt in
  if bool_decide (ext = "jpeg") || bool_decide (ext = "jpg") then
    sharp_format (JpegOptions quality true) sharpInstance
  else if bool_decide (ext = "webp") then
    sharp_format (WebpOptions quality) sharpInstance
  else if bool_decide (ext = "png") then
    sharp_format (PngOptions quality) sharpInstance
  else throw (Error ("Unsupported target extension: " +:+ targetExt)).

(** [compressImage] (lines 169-204) *)
Definition compressImage (inputPath outputPath : string)
    (quality : option float) (targetExt : option string)
    : M (option CompressionResult) :=
  let quality := default 60%float quality in
  let targetExt := default "jpg" targetExt in
  try_catch
    (originalSize <- getFileSizeInMB inputPath ;;
     let sharpInstance := sharp inputPath in
     sharpInstance <- select_encoder quality targetExt sharpInstance ;;
     sharp_toFile sharpInstance outputPath ;;
     compressedSize <- getFileSizeInMB outputPath ;;
     let savedSize := (originalSize - compressedSize)%float in
     ret (Some {| originalSize := originalSize;
                  compressedSize := compressedSize;
                  savedSize := savedSize |}))
    (fun error =>
       console_error (chalk ("Error compressing " +:+ inputPath +:+ ":")) error ;;
       ret None).

(** The destination of a file (lines 249-252). *)
Definition outputPath (exportDir file targetExt : string) : string :=
  Path.join exportDir (Path.parse_name file +:+ "." +:+ targetExt).

(** The loop over [imageFiles.entries()] (lines 247-275); the two running
    totals are passed along and returned. *)
Fixpoint for_imageFiles (sourceDir exportDir : string) (quality : float)
    (targetExt : string) (index : nat) (imageFiles : list string)
    (totalSavedSize totalOriginalSize : float) : M (float * float) :=
  match imageFiles with
  | [] => ret (totalSavedSize, totalOriginalSize)
  | file :: rest =>
      let inputPath := Path.join sourceDir file in
      let outputPath := outputPath exportDir file targetExt in
      emit (SpinnerText ("Compressing " +:+ file +:+ "...")) ;;
      result <- compressImage inputPath outputPath (Some quality)
                  (Some targetExt) ;;
      totals <-
        match result with
        | Some result =>
            let totalOriginalSize :=
              (totalOriginalSize + originalSize result)%float in
            let totalSavedSize :=
              (totalSavedSize + savedSize result)%float in
            console_log (fileInfo file result) ;;
            ret (totalSavedSize, totalOriginalSize)
        | None => ret (totalSavedSize, totalOriginalSize)
        end ;;
      emit (BarUpdate (index + 1)) ;;
      for_imageFiles sourceDir exportDir quality targetExt (S index) rest
        (fst totals) (snd totals)
  end.

(** [compressImagesInDirectory] (lines 207-304) *)
Definition compressImagesInDirectory (sourceDir exportDir : string)
    (quality : float) (targetExt : string) : M unit :=
  try_catch
    (files <- fs_readdir sourceDir ;;
     let imageFiles := List.filter image_pattern files in
     if (length imageFiles =? 0)%nat then
       console_log (chalk "No image files found in the specified directory.")
     else
       fs_ensureDir exportDir ;;
       emit (SpinnerStart "Starting compression...") ;;
       startTime <- performance_now ;;
       let totalSavedSize := 0%float in
       let totalOriginalSize := 0%float in
       emit (BarStart (length imageFiles) 0) ;;
       totals <- for_imageFiles sourceDir exportDir quality targetExt 0
                   imageFiles totalSavedSize totalOriginalSize ;;
       let totalSavedSize := fst totals in
       let totalOriginalSize := snd totals in
       emit BarStop ;;
       emit (SpinnerSucceed "Compression completed!") ;;
       endTime <- performance_now ;;
       let timeTaken := Number.toFixed2 ((endTime - startTime) / 1000)%float in
       let totalSpaceSavedPercentage :=
         Number.toFixed2 (totalSavedSize / totalOriginalSize * 100)%float in
       console_log (chalk (String "010"%char "Summary:")) ;;
       console_log (chalk "Total Images:" +:+ " "
                    +:+ Js.nat_to_string (length imageFiles)) ;;
       console_log (chalk "Total Original Size:" +:+ " "
                    +:+ Number.toFixed2 totalOriginalSize +:+ " MB") ;;
       console_log (chalk "Total Saved Size:" +:+ " "
                    +:+ Number.toFixed2 totalSavedSize +:+ " MB ("
                    +:+ chalk totalSpaceSavedPercentage +:+ "% space saved)") ;;
       console_log (chalk "Time Taken:" +:+ " " +:+ timeTaken +:+ " seconds"))
    (fun error => console_error (chalk "Error processing directory:") error).
End Program.
End MultiFormat.

(** ** Runs

    A computation is observed by running it from a world with an empty trace:
    what it returns or throws, the world it leaves, the calls it made. *)

Section Run.
Context `{Platform}.

Definition run {A} (c : M A) (w : World) : (error + A) * state :=
  c (State w []).
Definition outcome {A} (c : M A) (w : World) : error + A := fst (run c w).
Definition world_after {A} (c : M A) (w : World) : World :=
  world (snd (run c w)).
Definition events {A} (c : M A) (w : World) : list event :=
  trace (snd (run c w)).

(** Nothing reads or rewrites the trace: a computation behaves as from the
    empty trace and appends its calls to what was there. *)
Definition appends {A} (c : M A) : Prop :=
  forall w tr,
    c (State w tr) = (outcome c w, State (world_after c w) (tr ++ events c w)).

(** A computation that returns, whatever the world. *)
Definition returns {A} (c : M A) : Prop :=
  forall w, exists a, outcome c w = inr a.
End Run.

(** ** The batch, as a sequence of attempts

    [compress file] stands for the call of [compressImage] the loop makes for
    [file].  The loop itself changes the world through these calls only. *)

Section Batch.
Context `{Platform}.
Variable compress : string -> M (option CompressionResult).

(** What the caller gets from one call: a result, or nothing. *)
Definition returned (r : error + option CompressionResult)
    : option CompressionResult :=
  match r with inr (Some x) => Some x | _ => None end.

(** The per-file results, in order. *)
Fixpoint attempts (files : list string) (w : World)
    : list (option CompressionResult) :=
  match files with
  | [] => []
  | file :: rest =>
      returned (outcome (compress file) w)
      :: attempts rest (world_after (compress file) w)
  end.

Fixpoint world_after_all (files : list string) (w : World) : World :=
  match files with
  | [] => w
  | file :: rest => world_after_all rest (world_after (compress file) w)
  end.

(** The calls of one iteration: the spinner text, the calls of
    [compressImage], the per-file line on success, the progress update. *)
Definition iteration_events (index : nat) (file : string) (w : World)
    : list event :=
  [SpinnerText ("Compressing " +:+ file +:+ "...")]
  ++ events (compress file) w
  ++ match returned (outcome (compress file) w) with
     | Some result => [ConsoleLog (fileInfo file result)]
     | None => []
     end
  ++ [BarUpdate (index + 1)].

Fixpoint batch_events (index : nat) (files : list string) (w : World)
    : list event :=
  match files with
  | [] => []
  | file :: rest =>
      iteration_events index file w
      ++ batch_events (S index) rest (world_after (compress file) w)
  end.
End Batch.

(** The successful results among the attempts. *)
Fixpoint successes (rs : list (option CompressionResult))
    : list CompressionResult :=
  match rs with
  | [] => []
  | Some r :: rest => r :: successes rest
  | None :: rest => successes rest
  end.

(** A running total: the field of each result is added in turn. *)
Definition total (field : CompressionResult -> float) (init : float)
    (rs : list CompressionResult) : float :=
  fold_left (fun acc r => (acc + field r)%float) rs init.

(** The five lines of the summary (lines 104-116 and 288-300). *)
Definition summary_lines (count : nat) (totalSavedSize totalOriginalSize : float)
    (startTime endTime : float) : list event :=
  [ ConsoleLog (String "010"%char "Summary:");
    ConsoleLog ("Total Images: " +:+ Js.nat_to_string count);
    ConsoleLog ("Total Original Size: " +:+ Number.toFixed2 totalOriginalSize
                +:+ " MB");
    ConsoleLog ("Total Saved Size: " +:+ Number.toFixed2 totalSavedSize
                +:+ " MB ("
                +:+ Number.toFixed2 (totalSavedSize / totalOriginalSize * 100)%float
                +:+ "% space saved)");
    ConsoleLog ("Time Taken: "
                +:+ Number.toFixed2 ((endTime - startTime) / 1000)%float
                +:+ " seconds") ].

(** ** Reading a trace *)

(** The value a progress bar shows after the calls of a trace. *)
Definition bar_step (value : option nat) (e : event) : option nat :=
  match e with
  | BarStart _ v => Some v
  | BarUpdate v => Some v
  | _ => value
  end.

Definition bar_value (tr : list event) : option nat :=
  fold_left bar_step tr None.

Definition is_bar_update (e : event) : bool :=
  match e with BarUpdate _ => true | _ => false end.

Definition is_encoder_call (e : event) : bool :=
  match e with ToFile _ _ => true | _ => false end.

(** The calls [compressImage] can make: the encoder and the error log. *)
Definition from_compressImage (e : event) : bool :=
  match e with ToFile _ _ | ConsoleError _ _ => true | _ => false end.

(** The first line of the summary. *)
Definition summary_header : event := ConsoleLog (String "010"%char "Summary:").

(** ** A small platform to run the program on

    Paths stand for files with a byte count or for directories with a
    listing.  The codec refuses an input that is not a non-empty file and an
    output path that is a directory; JPEG halves a file, WebP quarters it,
    and PNG output is twice the input plus a header. *)

Module Toy.

Inductive node := File (size : Z) | Directory (entries : list string).

(** The nodes by path; an entry written later shadows an earlier one. *)
Record toy_world := { nodes : list (string * node); clock : float }.

Fixpoint lookup_path (path : string) (l : list (string * node)) : option node :=
  match l with
  | [] => None
  | (p, n) :: l' => if String.eqb p path then Some n else lookup_path path l'
  end.

Definition is_directory (n : option node) : bool :=
  match n with Some (Directory _) => true | _ => false end.

Definition toy_readdir (dir : string) (w : toy_world) : error + list string :=
  match lookup_path dir (nodes w) with
  | Some (Directory entries) => inr entries
  | Some (File _) => inl (Error ("ENOTDIR: not a directory, scandir " +:+ dir))
  | None => inl (Error ("ENOENT: no such file or directory, scandir " +:+ dir))
  end.

Definition toy_stat_size (path : string) (w : toy_world) : error + Z :=
  match lookup_path path (nodes w) with
  | Some (File size) => inr size
  | Some (Directory _) => inr 4096
  | None => inl (Error ("ENOENT: no such file or directory, stat " +:+ path))
  end.

Definition toy_ensureDir (dir : string) (w : toy_world)
    : (error + unit) * toy_world :=
  match lookup_path dir (nodes w) with
  | Some (Directory _) => (inr tt, w)
  | Some (File _) =>
      (inl (Error ("EEXIST: file already exists, mkdir " +:+ dir)), w)
  | None =>
      (inr tt, {| nodes := (dir, Directory []) :: nodes w; clock := clock w |})
  end.

Definition encoded_size (e : option Encoder) (size : Z) : Z :=
  match e with
  | Some (JpegOptions _ _) => size / 2
  | Some (WebpOptions _) => size / 4
  | Some (PngOptions _) => 2 * size + 64
  | None => size
  end.

Definition toy_toFile (image : Sharp) (outputPath : string) (w : toy_world)
    : (error + unit) * toy_world :=
  match lookup_path (input image) (nodes w) with
  | Some (File size) =>
      if size =? 0 then
        (inl (Error "Input file contains unsupported image format"), w)
      else if is_directory (lookup_path outputPath (nodes w)) then
        (inl (Error ("EISDIR: illegal operation on a directory, open "
                     +:+ outputPath)), w)
      else
        (inr tt,
         {| nodes := (outputPath, File (encoded_size (encoder image) size))
                     :: nodes w;
            clock := (clock w + 250)%float |})
  | Some (Directory _) =>
      (inl (Error "Input file contains unsupported image format"), w)
  | None => (inl (Error "Input file is missing"), w)
  end.

(** A quality from 1 to 100 for JPEG and WebP, from 0 to 100 for PNG. *)
Definition toy_check_options (e : Encoder) : error + unit :=
  let within low quality :=
    if ((low <=? quality) && (quality <=? 100))%float then inr tt
    else inl (Error "Expected a quality in range") in
  match e with
  | JpegOptions quality _ => within 1%float quality
  | WebpOptions quality => within 1%float quality
  | PngOptions quality => within 0%float quality
  end.

Definition toy_now (w : toy_world) : float * toy_world :=
  (clock w, {| nodes := nodes w; clock := (clock w + 1)%float |}).

Definition platform : Platform := {|
  World := toy_world;
  readdir := toy_readdir;
  stat_size := toy_stat_size;
  ensureDir := toy_ensureDir;
  check_options := toy_check_options;
  toFile := toy_toFile;
  now := toy_now
|}.

(** The state a run starts from. *)
Definition start (w : toy_world) : @state platform := @State platform w [].

(** A source directory with two images, a text file and a subdirectory whose
    name ends in [.png]. *)
Definition photos : toy_world :=
  {| nodes :=
       [ ("photos", Directory ["a.jpg"; "b.PNG"; "c.txt"; "album.png"]);
         ("photos/a.jpg", File 2097152);
         ("photos/b.PNG", File 1048576);
         ("photos/c.txt", File 12);
         ("photos/album.png", Directory []) ];
     clock := 0%float |}.

(** A source directory whose only image is an empty file. *)
Definition broken : toy_world :=
  {| nodes :=
       [ ("shots", Directory ["empty.jpg"; "notes.md"]);
         ("shots/empty.jpg", File 0);
         ("shots/notes.md", File 40) ];
     clock := 0%float |}.

(** A source directory without images. *)
Definition documents : toy_world :=
  {| nodes :=
       [ ("docs", Directory ["readme.md"; "jpg"; "photo.jpg.bak"]);
         ("docs/readme.md", File 100);
         ("docs/jpg", File 5);
         ("docs/photo.jpg.bak", File 7) ];
     clock := 0%float |}.

(** A source directory next to a regular file that has the name of the export
    directory. *)
Definition blocked : toy_world :=
  {| nodes :=
       [ ("in", Directory ["x.webp"]);
         ("in/x.webp", File 4096);
         ("out", File 1) ];
     clock := 0%float |}.

End Toy.

(** The call of [compressImage] each variant makes for a file (lines 72-77
    and 248-261). *)
Definition jpeg_attempt `{Platform} (sourceDir exportDir : string)
    (quality : float) (file : string) : M (option CompressionResult) :=
  JpegOnly.compressImage (Path.join sourceDir file) (Path.join exportDir file)
    (Some quality).

Definition attempt `{Platform} (sourceDir exportDir : string) (quality : float)
    (targetExt : string) (file : string) : M (option CompressionResult) :=
  MultiFormat.compressImage (Path.join sourceDir file)
    (MultiFormat.outputPath exportDir file targetExt)
    (Some quality) (Some targetExt).

(** ** Vocabulary of the statements *)

(** The extensions Discovery recognizes and the target formats the encoder
    switch knows, in lower case. *)
Definition recognized : list string := ["jpg"; "jpeg"; "png"; "webp"].

(** A name has a recognized extension when it ends in a dot followed by one
    of them, in any letter case. *)
Definition has_image_extension (name : string) : Prop :=
  exists stem ext,
    name = stem +:+ "." +:+ ext /\ Js.toLowerCase ext ∈ recognized.

(** Discovery in the words of the specification: walking the listing in
    order, a name is kept when it has a recognized extension and dropped
    otherwise. *)
Inductive retained : list string -> list string -> Prop :=
| retained_nil : retained [] []
| retained_keep name names kept :
    has_image_extension name -> retained names kept ->
    retained (name :: names) (name :: kept)
| retained_drop name names kept :
    ~ has_image_extension name -> retained names kept ->
    retained (name :: names) kept.

(** A target extension the switch of [compressImage] has no case for. *)
Definition unsupported (targetExt : string) : Prop :=
  Js.toLowerCase targetExt ∉ recognized.

Fixpoint contains (c : ascii) (s : string) : bool :=
  match s with
  | EmptyString => false
  | String c' s' => bool_decide (c' = c) || contains c s'
  end.

(** An entry name of a directory holds no slash. *)
Definition slash_free (name : string) : Prop := contains Path.slash name = false.

(** Both sizes of a result are byte counts read from disk, in MB: the input
    before the call, the output after it. *)
Definition sizes_measured `{Platform} (inputPath outputPath : string)
    (before after : World) (r : CompressionResult) : Prop :=
  exists n n' : Z,
    stat_size inputPath before = inr n /\
    stat_size outputPath after = inr n' /\
    originalSize r = (Number.of_size n / (1024 * 1024))%float /\
    compressedSize r = (Number.of_size n' / (1024 * 1024))%float.

(** The error [compressImage] logs when the target extension is unsupported:
    that of reading the input size when it cannot be read, else the one the
    switch throws. *)
Definition unsupported_error `{Platform} (inputPath targetExt : string)
    (w : World) : error :=
  match stat_size inputPath w with
  | inl e => e
  | inr _ => Error ("Unsupported target extension: " +:+ targetExt)
  end.

(** The running totals after one attempt. *)
Definition add_result (totals : float * float)
    (result : option CompressionResult) : float * float :=
  match result with
  | Some r => ((fst totals + savedSize r)%float,
               (snd totals + originalSize r)%float)
  | None => totals
  end.

(** The line of the summary that shows the saved total and a percentage. *)
Definition saved_line (totalSavedSize : float) (percentage : string) : event :=
  ConsoleLog ("Total Saved Size: " +:+ Number.toFixed2 totalSavedSize
              +:+ " MB (" +:+ percentage +:+ "% space saved)").

(** What [toFixed] gives for a number that is not finite. *)
Definition not_a_percentage : list string := ["NaN"; "Infinity"; "-Infinity"].

(** All bytes. *)
Definition all_ascii : list ascii := map ascii_of_nat (seq 0 256).

(** The options the switch of [compressImage] sets for a target extension it
    has a case for (lines 180-193). *)
Definition selects (quality : float) (targetExt : string) (enc : Encoder)
    : Prop :=
  let ext := Js.toLowerCase targetExt in
  (ext = "jpg" \/ ext = "jpeg") /\ enc = JpegOptions quality true
  \/ ext = "webp" /\ enc = WebpOptions quality
  \/ ext = "png" /\ enc = PngOptions quality.

(** What can go wrong in a call of [compressImage] that encodes with the
    options [enc], in the order of the calls it makes: the error raised, the
    world at that point and the calls made before it.  Reading the size of
    the input fails; the codec refuses the options; the encoder fails, which
    is where an input the codec cannot decode and an output it cannot write
    show; the size of the output cannot be read. *)
Inductive failure_cause `{Platform} (inputPath outputPath : string)
    (enc : Encoder) (w : World) : error -> World -> list event -> Prop :=
| input_unreadable e :
    stat_size inputPath w = inl e ->
    failure_cause inputPath outputPath enc w e w []
| options_refused n e :
    stat_size inputPath w = inr n ->
    check_options enc = inl e ->
    failure_cause inputPath outputPath enc w e w []
| encoder_failed n e w' :
    stat_size inputPath w = inr n ->
    check_options enc = inr tt ->
    toFile {| input := inputPath; encoder := Some enc |} outputPath w
    = (inl e, w') ->
    failure_cause inputPath outputPath enc w e w'
      [ToFile {| input := inputPath; encoder := Some enc |} outputPath]
| output_unreadable n e w' :
    stat_size inputPath w = inr n ->
    check_options enc = inr tt ->
    toFile {| input := inputPath; encoder := Some enc |} outputPath w
    = (inr tt, w') ->
    stat_size outputPath w' = inl e ->
    failure_cause inputPath outputPath enc w e w'
      [ToFile {| input := inputPath; encoder := Some enc |} outputPath].

(** ** Further readings of a trace and further examples *)

Definition is_error_log (e : event) : bool :=
  match e with ConsoleError _ _ => true | _ => false end.

Definition is_console_log (e : event) : bool :=
  match e with ConsoleLog _ => true | _ => false end.

Definition is_spinner_text (e : event) : bool :=
  match e with SpinnerText _ => true | _ => false end.

(** The calls of the encoder in a trace, in order: the instance and the path
    it was told to write. *)
Fixpoint encoder_calls (tr : list event) : list (Sharp * string) :=
  match tr with
  | [] => []
  | ToFile image outputPath :: tr' => (image, outputPath) :: encoder_calls tr'
  | _ :: tr' => encoder_calls tr'
  end.

(** The per-file lines (lines 82-88 and 266-272) of a list of files with
    their results: one for each file that has a result. *)
Fixpoint file_lines (files : list string)
    (results : list (option CompressionResult)) : list event :=
  match files, results with
  | file :: files', Some result :: results' =>
      ConsoleLog (fileInfo file result) :: file_lines files' results'
  | _ :: files', None :: results' => file_lines files' results'
  | _, _ => []
  end.

Module Cases.

(** A source directory of JPEG files: one is fine, one is empty, and one is
    listed but gone. *)
Definition album : Toy.toy_world :=
  {| Toy.nodes :=
       [ ("pics", Toy.Directory ["x.jpg"; "y.jpg"; "gone.jpg"]);
         ("pics/x.jpg", Toy.File 4194304);
         ("pics/y.jpg", Toy.File 0) ];
     Toy.clock := 0%float |}.

(** An export directory in which the name to write is taken by a
    directory. *)
Definition occupied : Toy.toy_world :=
  {| Toy.nodes :=
       [ ("in", Toy.Directory ["x.jpg"]);
         ("in/x.jpg", Toy.File 4096);
         ("out", Toy.Directory ["x.webp"]);
         ("out/x.webp", Toy.Directory []) ];
     Toy.clock := 0%float |}.

End Cases.

(** * Facts *)

(** ** The platform functions on examples *)

Example toFixed2_examples :
  map Number.toFixed2
    [0; 2.5; 0.125; 0x1.0147ae147ae14p+0; (-0.0009765625); 123456.75;
     0x1p+70; 0x1.fffffffffffffp+1023; (0 / 0); (-1 / 0)]%float
  = ["0.00"; "2.50"; "0.13"; "1.00"; "-0.00"; "123456.75";
     "1.1805916207174113e+21"; "1.7976931348623157e+308"; "NaN";
     "-Infinity"].
Proof. vm_compute. reflexivity. Qed.

Example join_examples :
  map (fun p => Path.join (fst p) (snd p))
    [("out", "a.webp"); ("./out/", "a.webp"); ("/srv/../out//", "../a.webp");
     ("", "a.webp"); ("../..", "a.webp")]
  = ["out/a.webp"; "out/a.webp"; "/a.webp"; "a.webp"; "../../a.webp"].
Proof. vm_compute. reflexivity. Qed.

Example parse_name_examples :
  map Path.parse_name
    ["a.jpg"; "archive.tar.jpg"; ".jpg"; "..jpg"; "a."; "plain"; ".."; "x/y.png"]
  = ["a"; "archive.tar"; ".jpg"; "."; "a"; "plain"; ".."; "y"].
Proof. vm_compute. reflexivity. Qed.

Example image_pattern_examples :
  map image_pattern
    ["a.jpg"; "b.PNG"; "c.JpEg"; "d.webp"; "e.txt"; "jpg"; "f.jpg.bak";
     ".png"; "g.png "]
  = [true; true; true; true; false; false; false; true; false].
Proof. vm_compute. reflexivity. Qed.

(** ** Computations append to the trace *)

Section RunFacts.
Context `{Platform}.

Lemma run_eq {A} (c : M A) (w : World) :
  c (State w []) = (outcome c w, State (world_after c w) (events c w)).
Proof.
  unfold outcome, world_after, events, run.
  destruct (c (State w [])) as [r [w' tr']]; reflexivity.
Qed.

Lemma appends_ret {A} (a : A) : appends (ret a).
Proof. intros w tr; cbn. by rewrite app_nil_r. Qed.

Lemma appends_throw {A} (e : error) : appends (throw (A := A) e).
Proof. intros w tr; cbn. by rewrite app_nil_r. Qed.

Lemma appends_emit (e : event) : appends (emit e).
Proof. intros w tr; reflexivity. Qed.

Lemma appends_read {A} (f : World -> error + A) : appends (read f).
Proof. intros w tr; cbn. by rewrite app_nil_r. Qed.

Lemma appends_act {A} (f : World -> (error + A) * World) : appends (act f).
Proof.
  intros w tr. unfold outcome, world_after, events, run, act; cbn.
  destruct (f w) as [r w']; cbn. by rewrite app_nil_r.
Qed.

Lemma appends_bind {A B} (c : M A) (k : A -> M B) :
  appends c -> (forall a, appends (k a)) -> appends (bind c k).
Proof.
  intros Hc Hk w tr.
  unfold outcome, world_after, events, run, bind.
  rewrite (Hc w tr), (Hc w []).
  destruct (outcome c w) as [e | a]; cbn; [reflexivity |].
  rewrite (Hk a _ (tr ++ events c w)), (Hk a _ (events c w)); cbn.
  by rewrite app_assoc.
Qed.

Lemma appends_try_catch {A} (body : M A) (handler : error -> M A) :
  appends body -> (forall e, appends (handler e)) ->
  appends (try_catch body handler).
Proof.
  intros Hb Hh w tr.
  unfold outcome, world_after, events, run, try_catch.
  rewrite (Hb w tr), (Hb w []).
  destruct (outcome body w) as [e | a]; cbn; [| reflexivity].
  rewrite (Hh e _ (tr ++ events body w)), (Hh e _ (events body w)); cbn.
  by rewrite app_assoc.
Qed.

(** A computation that appends and returns is determined by its run from
    the empty trace. *)
Lemma appends_returns {A} (c : M A) (w : World) (tr : list event) (a : A) :
  appends c -> outcome c w = inr a ->
  c (State w tr) = (inr a, State (world_after c w) (tr ++ events c w)).
Proof. intros Hc Ha. by rewrite (Hc w tr), Ha. Qed.
End RunFacts.

Ltac appends_step :=
  first
    [ apply appends_bind | apply appends_try_catch | apply appends_ret
    | apply appends_throw | apply appends_emit | apply appends_read
    | apply appends_act | intro ].

Section ProgramFacts.
Context `{Platform}.

Lemma appends_getFileSizeInMB (filePath : string) :
  appends (getFileSizeInMB filePath).
Proof. unfold getFileSizeInMB, fs_statSync_size. repeat appends_step. Qed.

Lemma appends_sharp_toFile (image : Sharp) (outputPath : string) :
  appends (sharp_toFile image outputPath).
Proof. unfold sharp_toFile. repeat appends_step. Qed.

Lemma appends_select_encoder quality targetExt image :
  appends (MultiFormat.select_encoder quality targetExt image).
Proof.
  unfold MultiFormat.select_encoder.
  repeat case_match; repeat appends_step.
Qed.

Lemma appends_compressImage inputPath outputPath quality targetExt :
  appends (MultiFormat.compressImage inputPath outputPath quality targetExt).
Proof.
  unfold MultiFormat.compressImage, console_error.
  repeat first
    [ apply appends_getFileSizeInMB | apply appends_sharp_toFile
    | apply appends_select_encoder | appends_step ].
Qed.

Lemma appends_jpeg_compressImage inputPath outputPath quality :
  appends (JpegOnly.compressImage inputPath outputPath quality).
Proof.
  unfold JpegOnly.compressImage, console_error.
  repeat first
    [ apply appends_getFileSizeInMB | apply appends_sharp_toFile
    | appends_step ].
Qed.
End ProgramFacts.

(** ** [compressImage] *)

Ltac unfold_compress :=
  unfold outcome, world_after, events, run, MultiFormat.compressImage,
    JpegOnly.compressImage, try_catch, bind, getFileSizeInMB,
    fs_statSync_size, MultiFormat.select_encoder, sharp_format, sharp_toFile,
    read, act, emit, console_error, ret, throw, chalk in *; cbn in *.

(** Case analysis on what the platform answers to the calls in the goal. *)
Ltac compress_cases :=
  cbn in *;
  repeat
    (first
       [ match goal with
         | |- context [check_options ?e] =>
             destruct (check_options e) as [? | []] eqn:?
         | |- context [toFile ?i ?o ?w] =>
             is_var w; destruct (toFile i o w) as [[? | []] ?] eqn:?
         | |- context [stat_size ?p ?w] =>
             is_var w; destruct (stat_size p w) as [? | ?] eqn:?
         end
       | case_bool_decide
       | match goal with
         | |- context [orb ?a ?b] => destruct (orb a b) eqn:?
         end ];
     cbn in *).

Section CompressFacts.
Context `{Platform}.

(** Every error raised inside [compressImage] is caught there. *)
Lemma compressImage_returns inputPath outputPath quality targetExt :
  returns (MultiFormat.compressImage inputPath outputPath quality targetExt).
Proof. intros w. unfold_compress. compress_cases; simplify_eq; eauto. Qed.

Lemma jpeg_compressImage_returns inputPath outputPath quality :
  returns (JpegOnly.compressImage inputPath outputPath quality).
Proof. intros w. unfold_compress. compress_cases; simplify_eq; eauto. Qed.

Lemma returned_outcome (c : M (option CompressionResult)) (w : World) :
  returns c -> outcome c w = inr (returned (outcome c w)).
Proof. intros Hc. destruct (Hc w) as [[r |] ->]; reflexivity. Qed.

(** The run of a call from any trace. *)
Lemma compressImage_run inputPath outputPath quality targetExt w tr :
  let c := MultiFormat.compressImage inputPath outputPath quality targetExt in
  c (State w tr)
  = (inr (returned (outcome c w)),
     State (world_after c w) (tr ++ events c w)).
Proof.
  intros c. apply appends_returns.
  - apply appends_compressImage.
  - apply returned_outcome, compressImage_returns.
Qed.

Lemma jpeg_compressImage_run inputPath outputPath quality w tr :
  let c := JpegOnly.compressImage inputPath outputPath quality in
  c (State w tr)
  = (inr (returned (outcome c w)),
     State (world_after c w) (tr ++ events c w)).
Proof.
  intros c. apply appends_returns.
  - apply appends_jpeg_compressImage.
  - apply returned_outcome, jpeg_compressImage_returns.
Qed.

(** A failed call ends by logging the error with the input path, after at
    most one call of the encoder; in particular it logs no per-file line
    and does not touch the progress bar. *)
Lemma compressImage_failure inputPath outputPath quality targetExt w :
  let c := MultiFormat.compressImage inputPath outputPath quality targetExt in
  returned (outcome c w) = None ->
  exists e calls,
    events c w
    = calls ++ [ConsoleError ("Error compressing " +:+ inputPath +:+ ":") e]
    /\ (calls = [] \/ exists image, calls = [ToFile image outputPath]).
Proof.
  intros c. subst c. unfold_compress.
  compress_cases; simplify_eq; try discriminate; intros _;
    first
      [ eexists _, []; split; [reflexivity | by left]
      | eexists _, [_]; split; [reflexivity | right; by eexists] ].
Qed.

Lemma jpeg_compressImage_failure inputPath outputPath quality w :
  let c := JpegOnly.compressImage inputPath outputPath quality in
  returned (outcome c w) = None ->
  exists e calls,
    events c w
    = calls ++ [ConsoleError ("Error compressing " +:+ inputPath +:+ ":") e]
    /\ (calls = [] \/ exists image, calls = [ToFile image outputPath]).
Proof.
  intros c. subst c. unfold_compress.
  compress_cases; simplify_eq; try discriminate; intros _;
    first
      [ eexists _, []; split; [reflexivity | by left]
      | eexists _, [_]; split; [reflexivity | right; by eexists] ].
Qed.

(** A successful call made exactly one call of the encoder and logged
    nothing. *)
Lemma compressImage_success_events inputPath outputPath quality targetExt w r :
  let c := MultiFormat.compressImage inputPath outputPath quality targetExt in
  returned (outcome c w) = Some r ->
  exists image, events c w = [ToFile image outputPath].
Proof.
  intros c. subst c. unfold_compress.
  compress_cases; simplify_eq; try discriminate; intros _; eauto.
Qed.

Lemma jpeg_compressImage_success_events inputPath outputPath quality w r :
  let c := JpegOnly.compressImage inputPath outputPath quality in
  returned (outcome c w) = Some r ->
  exists image, events c w = [ToFile image outputPath].
Proof.
  intros c. subst c. unfold_compress.
  compress_cases; simplify_eq; try discriminate; intros _; eauto.
Qed.
(** A successful call read the size of the input, ran the encoder and read
    the size of what it wrote. *)
Lemma compressImage_success_sizes inputPath outputPath quality targetExt w r :
  let c := MultiFormat.compressImage inputPath outputPath quality targetExt in
  returned (outcome c w) = Some r ->
  sizes_measured inputPath outputPath w (world_after c w) r
  /\ savedSize r = (originalSize r - compressedSize r)%float
  /\ exists image, toFile image outputPath w = (inr tt, world_after c w).
Proof.
  intros c. subst c. unfold sizes_measured. unfold_compress.
  compress_cases; try discriminate;
    intros [= <-]; cbn; (split; [eauto 10 | split; [reflexivity | eauto]]).
Qed.

Lemma jpeg_compressImage_success_sizes inputPath outputPath quality w r :
  let c := JpegOnly.compressImage inputPath outputPath quality in
  returned (outcome c w) = Some r ->
  sizes_measured inputPath outputPath w (world_after c w) r
  /\ savedSize r = (originalSize r - compressedSize r)%float
  /\ exists image, toFile image outputPath w = (inr tt, world_after c w).
Proof.
  intros c. subst c. unfold sizes_measured. unfold_compress.
  compress_cases; try discriminate;
    intros [= <-]; cbn; (split; [eauto 10 | split; [reflexivity | eauto]]).
Qed.
End CompressFacts.

(** ** The loop *)

Section LoopFacts.
Context `{Platform}.

Lemma bind_returned {A B} (c : M A) (k : A -> M B) s a s' :
  c s = (inr a, s') -> bind c k s = k a s'.
Proof. intros Hc. unfold bind. by rewrite Hc. Qed.

Lemma bind_thrown {A B} (c : M A) (k : A -> M B) s e s' :
  c s = (inl e, s') -> bind c k s = (inl e, s').
Proof. intros Hc. unfold bind. by rewrite Hc. Qed.

Lemma bind_emit {B} (e : event) (k : unit -> M B) w tr :
  bind (emit e) k (State w tr) = k tt (State w (tr ++ [e])).
Proof. reflexivity. Qed.

Lemma total_cons field init r rs :
  total field init (r :: rs) = total field (init + field r)%float rs.
Proof. reflexivity. Qed.

(** The loop returns; its totals are those of the successful attempts, and
    its calls are those of the iterations, in order. *)
Lemma for_imageFiles_run sourceDir exportDir quality targetExt files :
  forall index totalSavedSize totalOriginalSize w tr,
    let compress := attempt sourceDir exportDir quality targetExt in
    MultiFormat.for_imageFiles sourceDir exportDir quality targetExt index
      files totalSavedSize totalOriginalSize (State w tr)
    = (inr (total savedSize totalSavedSize
              (successes (attempts compress files w)),
            total originalSize totalOriginalSize
              (successes (attempts compress files w))),
       State (world_after_all compress files w)
         (tr ++ batch_events compress index files w)).
Proof.
  induction files as [| file rest IH]; intros index tS tO w tr compress.
  { cbn. by rewrite app_nil_r. }
  cbn [MultiFormat.for_imageFiles attempts world_after_all batch_events].
  rewrite (bind_emit (SpinnerText _)).
  erewrite bind_returned by apply compressImage_run.
  fold (attempt sourceDir exportDir quality targetExt file).
  fold compress.
  unfold iteration_events.
  destruct (returned (outcome (compress file) w)) as [r |] eqn:Hr.
  - cbn [console_log ret bind fst snd emit world trace].
    rewrite IH. cbn [successes]. rewrite !total_cons.
    subst compress. by rewrite <- !app_assoc.
  - cbn [ret bind fst snd emit world trace].
    rewrite IH. cbn [successes].
    subst compress. by rewrite <- !app_assoc.
Qed.

Lemma jpeg_for_imageFiles_run sourceDir exportDir quality files :
  forall index totalSavedSize totalOriginalSize w tr,
    let compress := jpeg_attempt sourceDir exportDir quality in
    JpegOnly.for_imageFiles sourceDir exportDir quality index
      files totalSavedSize totalOriginalSize (State w tr)
    = (inr (total savedSize totalSavedSize
              (successes (attempts compress files w)),
            total originalSize totalOriginalSize
              (successes (attempts compress files w))),
       State (world_after_all compress files w)
         (tr ++ batch_events compress index files w)).
Proof.
  induction files as [| file rest IH]; intros index tS tO w tr compress.
  { cbn. by rewrite app_nil_r. }
  cbn [JpegOnly.for_imageFiles attempts world_after_all batch_events].
  rewrite (bind_emit (SpinnerText _)).
  erewrite bind_returned by apply jpeg_compressImage_run.
  fold (jpeg_attempt sourceDir exportDir quality file).
  fold compress.
  unfold iteration_events.
  destruct (returned (outcome (compress file) w)) as [r |] eqn:Hr.
  - cbn [console_log ret bind fst snd emit world trace].
    rewrite IH. cbn [successes]. rewrite !total_cons.
    subst compress. by rewrite <- !app_assoc.
  - cbn [ret bind fst snd emit world trace].
    rewrite IH. cbn [successes].
    subst compress. by rewrite <- !app_assoc.
Qed.
End LoopFacts.

(** ** The whole run *)

Ltac unfold_main :=
  unfold MultiFormat.compressImagesInDirectory,
    JpegOnly.compressImagesInDirectory, try_catch, fs_readdir, read,
    console_log, console_error, chalk;
  cbn [bind world trace].

Section MainFacts.
Context `{Platform}.

(** The source directory cannot be listed. *)
Lemma run_unreadable sourceDir exportDir quality targetExt w tr e :
  readdir sourceDir w = inl e ->
  MultiFormat.compressImagesInDirectory sourceDir exportDir quality targetExt
    (State w tr)
  = (inr tt, State w (tr ++ [ConsoleError "Error processing directory:" e])).
Proof. intros Hdir. unfold_main. by rewrite Hdir. Qed.

(** No entry of the listing is an image. *)
Lemma run_no_images sourceDir exportDir quality targetExt w tr files :
  readdir sourceDir w = inr files ->
  List.filter image_pattern files = [] ->
  MultiFormat.compressImagesInDirectory sourceDir exportDir quality targetExt
    (State w tr)
  = (inr tt,
     State w
       (tr ++ [ConsoleLog "No image files found in the specified directory."])).
Proof. intros Hdir Hnone. unfold_main. by rewrite Hdir, Hnone. Qed.

(** The export directory cannot be made. *)
Lemma run_no_export_dir sourceDir exportDir quality targetExt w tr files e w1 :
  readdir sourceDir w = inr files ->
  List.filter image_pattern files <> [] ->
  ensureDir exportDir w = (inl e, w1) ->
  MultiFormat.compressImagesInDirectory sourceDir exportDir quality targetExt
    (State w tr)
  = (inr tt,
     State w1
       (tr ++ [EnsureDir exportDir;
               ConsoleError "Error processing directory:" e])).
Proof.
  intros Hdir Hsome Hmk. unfold_main. rewrite Hdir.
  destruct (List.filter image_pattern files) as [| file rest]; [done |].
  cbn [length Nat.eqb]. unfold fs_ensureDir, act, emit, bind.
  cbn [world trace]. rewrite Hmk. cbn [world trace].
  by rewrite <- app_assoc.
Qed.

(** Images were found and the export directory is there: the loop runs and
    the summary follows. *)
Lemma run_batch sourceDir exportDir quality targetExt w tr files w1 :
  readdir sourceDir w = inr files ->
  List.filter image_pattern files <> [] ->
  ensureDir exportDir w = (inr tt, w1) ->
  let imageFiles := List.filter image_pattern files in
  let compress := attempt sourceDir exportDir quality targetExt in
  let startTime := fst (now w1) in
  let w2 := snd (now w1) in
  let rs := successes (attempts compress imageFiles w2) in
  let w3 := world_after_all compress imageFiles w2 in
  let endTime := fst (now w3) in
  MultiFormat.compressImagesInDirectory sourceDir exportDir quality targetExt
    (State w tr)
  = (inr tt,
     State (snd (now w3))
       (tr
        ++ [EnsureDir exportDir; SpinnerStart "Starting compression...";
            BarStart (length imageFiles) 0]
        ++ batch_events compress 0 imageFiles w2
        ++ [BarStop; SpinnerSucceed "Compression completed!"]
        ++ summary_lines (length imageFiles) (total savedSize 0 rs)
             (total originalSize 0 rs) startTime endTime)).
Proof.
  intros Hdir Hsome Hmk.
  assert (Hlen : (length (List.filter image_pattern files) =? 0)%nat = false)
    by (destruct (List.filter image_pattern files); [done | reflexivity]).
  intros imageFiles compress startTime w2 rs w3 endTime.
  unfold_main. rewrite Hdir, Hlen. fold imageFiles.
  unfold fs_ensureDir, performance_now, act, emit, bind.
  cbn [world trace]. rewrite Hmk. cbn [world trace].
  subst startTime w2. destruct (now w1) as [t0 w2]. cbn [fst snd] in *.
  cbn [world trace]. rewrite for_imageFiles_run.
  fold compress. fold rs. cbn [world trace fst snd].
  subst endTime w3.
  destruct (now (world_after_all compress imageFiles w2)) as [t1 w4].
  cbn [world trace fst snd].
  unfold summary_lines. rewrite <- !app_assoc. reflexivity.
Qed.
End MainFacts.

Section JpegMainFacts.
Context `{Platform}.

(** The source directory cannot be listed. *)
Lemma jpeg_run_unreadable sourceDir exportDir quality w tr e :
  readdir sourceDir w = inl e ->
  JpegOnly.compressImagesInDirectory sourceDir exportDir quality
    (State w tr)
  = (inr tt, State w (tr ++ [ConsoleError "Error processing directory:" e])).
Proof. intros Hdir. unfold_main. by rewrite Hdir. Qed.

(** No entry of the listing is an image. *)
Lemma jpeg_run_no_images sourceDir exportDir quality w tr files :
  readdir sourceDir w = inr files ->
  List.filter image_pattern files = [] ->
  JpegOnly.compressImagesInDirectory sourceDir exportDir quality
    (State w tr)
  = (inr tt,
     State w
       (tr ++ [ConsoleLog "No image files found in the specified directory."])).
Proof. intros Hdir Hnone. unfold_main. by rewrite Hdir, Hnone. Qed.

(** The export directory cannot be made. *)
Lemma jpeg_run_no_export_dir sourceDir exportDir quality w tr files e w1 :
  readdir sourceDir w = inr files ->
  List.filter image_pattern files <> [] ->
  ensureDir exportDir w = (inl e, w1) ->
  JpegOnly.compressImagesInDirectory sourceDir exportDir quality
    (State w tr)
  = (inr tt,
     State w1
       (tr ++ [EnsureDir exportDir;
               ConsoleError "Error processing directory:" e])).
Proof.
  intros Hdir Hsome Hmk. unfold_main. rewrite Hdir.
  destruct (List.filter image_pattern files) as [| file rest]; [done |].
  cbn [length Nat.eqb]. unfold fs_ensureDir, act, emit, bind.
  cbn [world trace]. rewrite Hmk. cbn [world trace].
  by rewrite <- app_assoc.
Qed.

(** Images were found and the export directory is there: the loop runs and
    the summary follows. *)
Lemma jpeg_run_batch sourceDir exportDir quality w tr files w1 :
  readdir sourceDir w = inr files ->
  List.filter image_pattern files <> [] ->
  ensureDir exportDir w = (inr tt, w1) ->
  let imageFiles := List.filter image_pattern files in
  let compress := jpeg_attempt sourceDir exportDir quality in
  let startTime := fst (now w1) in
  let w2 := snd (now w1) in
  let rs := successes (attempts compress imageFiles w2) in
  let w3 := world_after_all compress imageFiles w2 in
  let endTime := fst (now w3) in
  JpegOnly.compressImagesInDirectory sourceDir exportDir quality
    (State w tr)
  = (inr tt,
     State (snd (now w3))
       (tr
        ++ [EnsureDir exportDir; SpinnerStart "Starting compression...";
            BarStart (length imageFiles) 0]
        ++ batch_events compress 0 imageFiles w2
        ++ [BarStop; SpinnerSucceed "Compression completed!"]
        ++ summary_lines (length imageFiles) (total savedSize 0 rs)
             (total originalSize 0 rs) startTime endTime)).
Proof.
  intros Hdir Hsome Hmk.
  assert (Hlen : (length (List.filter image_pattern files) =? 0)%nat = false)
    by (destruct (List.filter image_pattern files); [done | reflexivity]).
  intros imageFiles compress startTime w2 rs w3 endTime.
  unfold_main. rewrite Hdir, Hlen. fold imageFiles.
  unfold fs_ensureDir, performance_now, act, emit, bind.
  cbn [world trace]. rewrite Hmk. cbn [world trace].
  subst startTime w2. destruct (now w1) as [t0 w2]. cbn [fst snd] in *.
  cbn [world trace]. rewrite jpeg_for_imageFiles_run.
  fold compress. fold rs. cbn [world trace fst snd].
  subst endTime w3.
  destruct (now (world_after_all compress imageFiles w2)) as [t1 w4].
  cbn [world trace fst snd].
  unfold summary_lines. rewrite <- !app_assoc. reflexivity.
Qed.
End JpegMainFacts.

(** ** Characters and strings *)

Section StringFacts.

Lemma app_nil_start (s : string) : "" +:+ s = s.
Proof. reflexivity. Qed.

Lemma app_cons_start (c : ascii) (s t : string) :
  String c s +:+ t = String c (s +:+ t).
Proof. reflexivity. Qed.

Lemma ascii_in_all (c : ascii) : In c all_ascii.
Proof.
  unfold all_ascii. apply in_map_iff. exists (nat_of_ascii c). split.
  - apply ascii_nat_embedding.
  - apply in_seq. pose proof (nat_ascii_bounded c). lia.
Qed.

(** Upper-casing and lower-casing identify the same pairs of bytes. *)
Lemma canonicalize_lower (a b : ascii) :
  Js.canonicalize a = Js.canonicalize b <-> Js.lower_char a = Js.lower_char b.
Proof.
  assert (Htable :
    forallb (fun a => forallb (fun b =>
      Bool.eqb (bool_decide (Js.canonicalize a = Js.canonicalize b))
               (bool_decide (Js.lower_char a = Js.lower_char b)))
      all_ascii) all_ascii = true) by (vm_compute; reflexivity).
  rewrite forallb_forall in Htable.
  specialize (Htable a (ascii_in_all a)). rewrite forallb_forall in Htable.
  specialize (Htable b (ascii_in_all b)). apply Bool.eqb_prop in Htable.
  by rewrite <- (bool_decide_eq_true (Js.canonicalize a = Js.canonicalize b)),
    Htable, bool_decide_eq_true.
Qed.

(** Only the dot lower-cases to the dot. *)
Lemma lower_char_dot (c : ascii) : Js.lower_char c = Path.dot -> c = Path.dot.
Proof.
  assert (Htable :
    forallb (fun c =>
      implb (bool_decide (Js.lower_char c = Path.dot)) (bool_decide (c = Path.dot)))
      all_ascii = true) by (vm_compute; reflexivity).
  rewrite forallb_forall in Htable. specialize (Htable c (ascii_in_all c)).
  intros Heq. rewrite (bool_decide_eq_true_2 _ Heq) in Htable.
  by apply (bool_decide_eq_true (c = Path.dot)).
Qed.

Lemma matches_to_end_lower (pat s : string) :
  Js.matches_to_end pat s = true <-> Js.toLowerCase pat = Js.toLowerCase s.
Proof.
  revert s. induction pat as [| p pat IH]; intros [| c s]; cbn; try done.
  rewrite andb_true_iff, bool_decide_eq_true, canonicalize_lower, IH.
  split; [intros [-> ->]; done | intros [= -> ->]; done].
Qed.

(** A literal followed by [$] is found when the input ends with a match. *)
Lemma test_literal_at_end_suffix (pat s : string) :
  Js.test_literal_at_end pat s = true
  <-> exists pre suf, s = pre +:+ suf /\ Js.matches_to_end pat suf = true.
Proof.
  induction s as [| c s IH].
  - cbn. rewrite orb_false_r. split.
    + intros Hm. exists "", "". done.
    + intros (pre & suf & Heq & Hm). destruct pre, suf; try discriminate. done.
  - cbn [Js.test_literal_at_end]. rewrite orb_true_iff, IH. split.
    + intros [Hm | (pre & suf & -> & Hm)].
      * exists "", (String c s). done.
      * exists (String c pre), suf. done.
    + intros (pre & suf & Heq & Hm). destruct pre as [| c' pre].
      * left. rewrite app_nil_start in Heq. by subst suf.
      * right. rewrite app_cons_start in Heq. injection Heq as -> ->. eauto.
Qed.

Lemma toLowerCase_recognized (alt : string) :
  alt ∈ recognized -> Js.toLowerCase alt = alt.
Proof.
  unfold recognized. rewrite !elem_of_cons, elem_of_nil.
  intros [Heq | [Heq | [Heq | [Heq | []]]]]; by rewrite Heq.
Qed.

Lemma existsb_recognized (f : string -> bool) :
  existsb f recognized = true <-> exists alt, alt ∈ recognized /\ f alt = true.
Proof.
  rewrite existsb_exists. split; intros (alt & Hin & Hf); exists alt;
    (split; [by apply list_elem_of_In | done]).
Qed.

(** The pattern of Discovery holds of the names with a recognized extension. *)
Lemma image_pattern_extension (file : string) :
  image_pattern file = true <-> has_image_extension file.
Proof.
  unfold image_pattern, has_image_extension. fold recognized.
  rewrite existsb_recognized. split.
  - intros (alt & Halt & Htest).
    apply test_literal_at_end_suffix in Htest as (pre & suf & -> & Hm).
    apply matches_to_end_lower in Hm. rewrite app_cons_start in Hm.
    destruct suf as [| c ext]; [discriminate |]. cbn in Hm.
    injection Hm as Hc Hext. symmetry in Hc. apply lower_char_dot in Hc as ->.
    exists pre, ext. split; [done |].
    rewrite <- Hext, toLowerCase_recognized by done. done.
  - intros (stem & ext & -> & Hext).
    exists (Js.toLowerCase ext). split; [done |].
    apply test_literal_at_end_suffix. exists stem, ("." +:+ ext). split; [done |].
    apply matches_to_end_lower. rewrite !app_cons_start, !app_nil_start. cbn.
    by rewrite toLowerCase_recognized.
Qed.

End StringFacts.

(** ** Paths *)

Section PathFacts.

Lemma contains_app (c : ascii) (a b : string) :
  contains c (a +:+ b) = contains c a || contains c b.
Proof.
  induction a as [| c' a IH]; [reflexivity |].
  rewrite app_cons_start. cbn. by rewrite IH, orb_assoc.
Qed.

(** A name without a slash is one segment. *)
Lemma split_go_slash_free (name cur : string) :
  slash_free name -> Path.split_go cur name = [String.rev_app cur name].
Proof.
  unfold slash_free. revert cur.
  induction name as [| c name IH]; intros cur Hfree; [reflexivity |].
  cbn in Hfree. apply orb_false_iff in Hfree as [Hc Hfree].
  cbn [Path.split_go]. rewrite Hc. by rewrite IH.
Qed.

Lemma base_slash_free (name : string) : slash_free name -> Path.base name = name.
Proof.
  intros Hfree. unfold Path.base, Path.split.
  rewrite split_go_slash_free by done. cbn [String.rev_app rev app].
  destruct name; [reflexivity |].
  by rewrite filter_cons_True.
Qed.

Lemma before_last_dot_none (ext : string) :
  contains Path.dot ext = false -> Path.before_last_dot ext = None.
Proof.
  induction ext as [| c ext IH]; [reflexivity |].
  cbn. intros [Hc Hext]%orb_false_iff. by rewrite IH, Hc.
Qed.

(** The last dot of a name splits it into stem and extension. *)
Lemma before_last_dot_stem (stem ext : string) :
  contains Path.dot ext = false ->
  Path.before_last_dot (stem +:+ "." +:+ ext) = Some stem.
Proof.
  intros Hext. induction stem as [| c stem IH].
  - rewrite app_nil_start, app_cons_start, app_nil_start. cbn.
    by rewrite before_last_dot_none.
  - rewrite app_cons_start. cbn. by rewrite IH.
Qed.

Lemma contains_dot_lower (s : string) :
  contains Path.dot (Js.toLowerCase s) = contains Path.dot s.
Proof.
  induction s as [| c s IH]; [reflexivity |].
  cbn. rewrite IH. f_equal. apply bool_decide_ext. split.
  - apply lower_char_dot.
  - by intros ->.
Qed.

(** A recognized extension holds no dot and is not empty. *)
Lemma recognized_dot_free (ext : string) :
  Js.toLowerCase ext ∈ recognized ->
  contains Path.dot ext = false /\ ext <> "".
Proof.
  intros Hext. split.
  - rewrite <- contains_dot_lower. revert Hext. unfold recognized.
    rewrite !elem_of_cons, elem_of_nil.
    intros [Heq | [Heq | [Heq | [Heq | []]]]]; by rewrite Heq.
  - intros ->. revert Hext. unfold recognized.
    rewrite !elem_of_cons, elem_of_nil. cbn.
    intros [? | [? | [? | [? | []]]]]; discriminate.
Qed.

(** [path.parse(file).name] of an entry name with a recognized extension:
    the stem, unless the name starts with its only dot. *)
Lemma parse_name_image (stem ext : string) :
  slash_free (stem +:+ "." +:+ ext) ->
  Js.toLowerCase ext ∈ recognized ->
  Path.parse_name (stem +:+ "." +:+ ext)
  = if bool_decide (stem = "") then stem +:+ "." +:+ ext else stem.
Proof.
  intros Hfree [Hdot Hne]%recognized_dot_free.
  unfold Path.parse_name. rewrite base_slash_free by done.
  rewrite before_last_dot_stem by done.
  destruct stem as [| a stem]; [reflexivity |].
  case_bool_decide as Hempty; [discriminate |]. cbn [orb].
  case_bool_decide as Hdots; [exfalso | reflexivity].
  rewrite app_cons_start in Hdots. injection Hdots as -> Hrest.
  destruct stem as [| b stem].
  - rewrite app_nil_start, app_cons_start, app_nil_start in Hrest.
    by injection Hrest.
  - rewrite app_cons_start in Hrest. injection Hrest as -> Hrest.
    by destruct stem.
Qed.

End PathFacts.

(** ** One iteration, and what the iterations add up to *)

Section IterationFacts.
Context `{Platform}.

(** One turn of the loop: the calls of the iteration are appended, the
    totals take the result in, and the loop goes on with the next index. *)
Lemma for_imageFiles_step sourceDir exportDir quality targetExt index file rest
    totalSavedSize totalOriginalSize w tr :
  let compress := attempt sourceDir exportDir quality targetExt in
  let totals :=
    add_result (totalSavedSize, totalOriginalSize)
      (returned (outcome (compress file) w)) in
  MultiFormat.for_imageFiles sourceDir exportDir quality targetExt index
    (file :: rest) totalSavedSize totalOriginalSize (State w tr)
  = MultiFormat.for_imageFiles sourceDir exportDir quality targetExt (S index)
      rest (fst totals) (snd totals)
      (State (world_after (compress file) w)
         (tr ++ iteration_events compress index file w)).
Proof.
  intros compress totals. subst totals.
  cbn [MultiFormat.for_imageFiles].
  rewrite (bind_emit (SpinnerText _)).
  erewrite bind_returned by apply compressImage_run.
  fold (attempt sourceDir exportDir quality targetExt file). fold compress.
  unfold iteration_events.
  destruct (returned (outcome (compress file) w)) as [r |];
    cbn [console_log ret bind fst snd emit world trace add_result];
    by rewrite <- !app_assoc.
Qed.

Lemma jpeg_for_imageFiles_step sourceDir exportDir quality index file rest
    totalSavedSize totalOriginalSize w tr :
  let compress := jpeg_attempt sourceDir exportDir quality in
  let totals :=
    add_result (totalSavedSize, totalOriginalSize)
      (returned (outcome (compress file) w)) in
  JpegOnly.for_imageFiles sourceDir exportDir quality index
    (file :: rest) totalSavedSize totalOriginalSize (State w tr)
  = JpegOnly.for_imageFiles sourceDir exportDir quality (S index)
      rest (fst totals) (snd totals)
      (State (world_after (compress file) w)
         (tr ++ iteration_events compress index file w)).
Proof.
  intros compress totals. subst totals.
  cbn [JpegOnly.for_imageFiles].
  rewrite (bind_emit (SpinnerText _)).
  erewrite bind_returned by apply jpeg_compressImage_run.
  fold (jpeg_attempt sourceDir exportDir quality file). fold compress.
  unfold iteration_events.
  destruct (returned (outcome (compress file) w)) as [r |];
    cbn [console_log ret bind fst snd emit world trace add_result];
    by rewrite <- !app_assoc.
Qed.

(** The calls of [compressImage] are encoder calls and error logs only. *)
Lemma attempt_events sourceDir exportDir quality targetExt file w :
  Forall (fun e => from_compressImage e = true)
    (events (attempt sourceDir exportDir quality targetExt file) w).
Proof.
  unfold attempt.
  destruct (returned (outcome (MultiFormat.compressImage
    (Path.join sourceDir file) (MultiFormat.outputPath exportDir file targetExt)
    (Some quality) (Some targetExt)) w)) as [r |] eqn:Hr.
  - apply compressImage_success_events in Hr as [image ->].
    repeat constructor.
  - apply compressImage_failure in Hr as (e & calls & -> & [-> | [image ->]]);
      repeat constructor.
Qed.

Lemma jpeg_attempt_events sourceDir exportDir quality file w :
  Forall (fun e => from_compressImage e = true)
    (events (jpeg_attempt sourceDir exportDir quality file) w).
Proof.
  unfold jpeg_attempt.
  destruct (returned (outcome (JpegOnly.compressImage
    (Path.join sourceDir file) (Path.join exportDir file)
    (Some quality)) w)) as [r |] eqn:Hr.
  - apply jpeg_compressImage_success_events in Hr as [image ->].
    repeat constructor.
  - apply jpeg_compressImage_failure in Hr
      as (e & calls & -> & [-> | [image ->]]); repeat constructor.
Qed.
End IterationFacts.

Section BatchFacts.
Context `{Platform}.
Variable compress : string -> M (option CompressionResult).
Hypothesis compress_events :
  forall file w,
    Forall (fun e => from_compressImage e = true) (events (compress file) w).

Lemma no_bar_update_from_compressImage (evs : list event) :
  Forall (fun e => from_compressImage e = true) evs ->
  List.filter is_bar_update evs = [] /\
  forall value, fold_left bar_step evs value = value.
Proof.
  induction 1 as [| e evs He _ [IHf IHv]]; [done |].
  destruct e; try discriminate; cbn; auto.
Qed.

(** The progress updates of an iteration: one, at its end, to the next
    index. *)
Lemma iteration_bar_updates index file w :
  exists before,
    iteration_events compress index file w = before ++ [BarUpdate (index + 1)]
    /\ List.filter is_bar_update before = []
    /\ forall value, fold_left bar_step before value = value.
Proof.
  unfold iteration_events.
  destruct (no_bar_update_from_compressImage _ (compress_events file w))
    as [Hf Hv].
  eexists (_ :: _ ++ _). split; [| split].
  - cbn [app]. f_equal. rewrite <- app_assoc. reflexivity.
  - cbn [List.filter is_bar_update]. rewrite List.filter_app, Hf.
    by destruct (returned _).
  - intros value. cbn [fold_left bar_step]. rewrite fold_left_app, Hv.
    by destruct (returned _).
Qed.

Lemma batch_bar_updates files :
  forall index w,
    List.filter is_bar_update (batch_events compress index files w)
    = map BarUpdate (seq (index + 1) (length files)).
Proof.
  induction files as [| file rest IH]; intros index w; [reflexivity |].
  cbn [batch_events length seq map].
  destruct (iteration_bar_updates index file w) as (before & -> & Hf & _).
  rewrite !List.filter_app, Hf, IH. cbn. reflexivity.
Qed.

Lemma batch_bar_value files :
  forall index w,
    fold_left bar_step (batch_events compress index files w) (Some index)
    = Some (index + length files)%nat.
Proof.
  induction files as [| file rest IH]; intros index w.
  { cbn. f_equal. lia. }
  cbn [batch_events length].
  destruct (iteration_bar_updates index file w) as (before & -> & _ & Hv).
  rewrite !fold_left_app, Hv. cbn [fold_left bar_step].
  replace (index + 1)%nat with (S index) by lia. rewrite IH. f_equal. lia.
Qed.

Lemma attempts_length files :
  forall w, length (attempts compress files w) = length files.
Proof. induction files as [| file rest IH]; intros w; cbn; auto. Qed.
End BatchFacts.

(** ** The calls of a whole run *)

Section RunEvents.
Context `{Platform}.

Lemma events_of_run {A} (c : M A) (w : World) r w' tr' :
  c (State w []) = (r, State w' tr') -> events c w = tr'.
Proof. intros Hc. unfold events, run. by rewrite Hc. Qed.

Lemma batch_run_events sourceDir exportDir quality targetExt w files w1 :
  readdir sourceDir w = inr files ->
  List.filter image_pattern files <> [] ->
  ensureDir exportDir w = (inr tt, w1) ->
  let imageFiles := List.filter image_pattern files in
  let compress := attempt sourceDir exportDir quality targetExt in
  let w2 := snd (now w1) in
  let rs := successes (attempts compress imageFiles w2) in
  events
    (MultiFormat.compressImagesInDirectory sourceDir exportDir quality targetExt)
    w
  = [EnsureDir exportDir; SpinnerStart "Starting compression...";
     BarStart (length imageFiles) 0]
    ++ batch_events compress 0 imageFiles w2
    ++ [BarStop; SpinnerSucceed "Compression completed!"]
    ++ summary_lines (length imageFiles) (total savedSize 0 rs)
         (total originalSize 0 rs) (fst (now w1))
         (fst (now (world_after_all compress imageFiles w2))).
Proof.
  intros Hdir Hsome Hmk. cbv zeta.
  eapply events_of_run. by rewrite (run_batch _ _ _ _ _ _ _ _ Hdir Hsome Hmk).
Qed.

Lemma jpeg_batch_run_events sourceDir exportDir quality w files w1 :
  readdir sourceDir w = inr files ->
  List.filter image_pattern files <> [] ->
  ensureDir exportDir w = (inr tt, w1) ->
  let imageFiles := List.filter image_pattern files in
  let compress := jpeg_attempt sourceDir exportDir quality in
  let w2 := snd (now w1) in
  let rs := successes (attempts compress imageFiles w2) in
  events (JpegOnly.compressImagesInDirectory sourceDir exportDir quality) w
  = [EnsureDir exportDir; SpinnerStart "Starting compression...";
     BarStart (length imageFiles) 0]
    ++ batch_events compress 0 imageFiles w2
    ++ [BarStop; SpinnerSucceed "Compression completed!"]
    ++ summary_lines (length imageFiles) (total savedSize 0 rs)
         (total originalSize 0 rs) (fst (now w1))
         (fst (now (world_after_all compress imageFiles w2))).
Proof.
  intros Hdir Hsome Hmk. cbv zeta.
  eapply events_of_run.
  by rewrite (jpeg_run_batch _ _ _ _ _ _ _ Hdir Hsome Hmk).
Qed.

(** The switch throws on an extension it has no case for. *)
Lemma select_encoder_unsupported quality targetExt image s :
  unsupported targetExt ->
  MultiFormat.select_encoder quality targetExt image s
  = (inl (Error ("Unsupported target extension: " +:+ targetExt)), s).
Proof.
  unfold unsupported, recognized. rewrite !not_elem_of_cons.
  intros (Hjpg & Hjpeg & Hpng & Hwebp & _).
  unfold MultiFormat.select_encoder.
  repeat case_bool_decide; try done.
Qed.

Lemma compressImage_unsupported inputPath outputPath quality targetExt w tr :
  unsupported targetExt ->
  MultiFormat.compressImage inputPath outputPath quality (Some targetExt)
    (State w tr)
  = (inr None,
     State w
       (tr ++ [ConsoleError ("Error compressing " +:+ inputPath +:+ ":")
                 (unsupported_error inputPath targetExt w)])).
Proof.
  intros Hun. unfold MultiFormat.compressImage, unsupported_error, try_catch,
    getFileSizeInMB, fs_statSync_size, read, bind at 1 2.
  cbn [world trace default].
  destruct (stat_size inputPath w) as [e | n]; [reflexivity |].
  cbn [ret]. unfold bind at 1.
  by rewrite select_encoder_unsupported.
Qed.
End RunEvents.

(** ** The summary *)

Section SummaryFacts.
Context `{Platform}.

(** What the summary reads when nothing was added to the totals. *)
Lemma summary_lines_of_nothing count startTime endTime :
  summary_lines count 0 0 startTime endTime
  = [ summary_header;
      ConsoleLog ("Total Images: " +:+ Js.nat_to_string count);
      ConsoleLog "Total Original Size: 0.00 MB";
      ConsoleLog "Total Saved Size: 0.00 MB (NaN% space saved)";
      ConsoleLog ("Time Taken: "
                  +:+ Number.toFixed2 ((endTime - startTime) / 1000)%float
                  +:+ " seconds") ].
Proof. reflexivity. Qed.

Lemma summary_header_in_summary count saved original startTime endTime :
  summary_header ∈ summary_lines count saved original startTime endTime.
Proof. apply list_elem_of_here. Qed.
End SummaryFacts.

(** A division by a zero total is not finite, whatever is divided, and
    multiplying by 100 keeps it so. *)
Lemma percentage_of_zero_total (saved original : float) :
  (original =? 0)%float = true ->
  Number.toFixed2 (saved / original * 100)%float ∈ not_a_percentage.
Proof.
  rewrite FloatAxioms.eqb_spec. unfold Number.toFixed2, not_a_percentage.
  rewrite FloatAxioms.mul_spec, FloatAxioms.div_spec.
  change (Prim2SF 0) with (S754_zero false).
  change (Prim2SF 100) with (S754_finite false 7036874417766400 (-46)).
  destruct (Prim2SF original) as [so | so | | so mo eo]; cbn;
    try discriminate; try (destruct so; discriminate).
  intros _.
  destruct (Prim2SF saved) as [ss | ss | | ss ms es]; cbn;
    repeat match goal with b : bool |- _ => destruct b end; cbn;
    rewrite !elem_of_cons; auto.
Qed.

(** ** Destinations and discovery *)

Section DestinationFacts.
Context `{Platform}.

(** The only path [compressImage] hands to the encoder is its
    [outputPath]. *)
Lemma compressImage_destination inputPath outputPath quality targetExt w
    image out :
  ToFile image out
  ∈ events (MultiFormat.compressImage inputPath outputPath quality targetExt) w
  -> out = outputPath.
Proof.
  destruct (returned (outcome (MultiFormat.compressImage inputPath outputPath
                                 quality targetExt) w)) as [r |] eqn:Hr.
  - apply compressImage_success_events in Hr as [image' ->].
    rewrite list_elem_of_singleton. by intros [= _ ->].
  - apply compressImage_failure in Hr as (e & calls & -> & [-> | [image' ->]]);
      cbn [app]; rewrite ?elem_of_cons, elem_of_nil;
      intros; destruct_or?; simplify_eq; done.
Qed.

Lemma jpeg_compressImage_destination inputPath outputPath quality w image out :
  ToFile image out
  ∈ events (JpegOnly.compressImage inputPath outputPath quality) w
  -> out = outputPath.
Proof.
  destruct (returned (outcome (JpegOnly.compressImage inputPath outputPath
                                 quality) w)) as [r |] eqn:Hr.
  - apply jpeg_compressImage_success_events in Hr as [image' ->].
    rewrite list_elem_of_singleton. by intros [= _ ->].
  - apply jpeg_compressImage_failure in Hr
      as (e & calls & -> & [-> | [image' ->]]);
      cbn [app]; rewrite ?elem_of_cons, elem_of_nil;
      intros; destruct_or?; simplify_eq; done.
Qed.
End DestinationFacts.

(** ** A call of [compressImage], step by step *)

(** The cases of the switch. *)
Lemma switch_cases (targetExt : string) :
  let ext := Js.toLowerCase targetExt in
  ((ext = "jpg" \/ ext = "jpeg")
   \/ ext = "webp" \/ ext = "png") \/ unsupported targetExt.
Proof.
  cbv zeta. unfold unsupported, recognized.
  destruct (decide (Js.toLowerCase targetExt = "jpg")); [auto |].
  destruct (decide (Js.toLowerCase targetExt = "jpeg")); [auto |].
  destruct (decide (Js.toLowerCase targetExt = "webp")); [auto |].
  destruct (decide (Js.toLowerCase targetExt = "png")); [auto |].
  right. rewrite !not_elem_of_cons. repeat split; try done.
  apply not_elem_of_nil.
Qed.

(** Which of the listed calls a call in the trace is. *)
Ltac calls_in Hin :=
  cbn [app] in Hin; rewrite ?elem_of_cons, ?elem_of_nil in Hin;
  destruct_or?; simplify_eq; try done.

Section ShapeFacts.
Context `{Platform}.

(** The switch on a target extension it has a case for. *)
Lemma select_encoder_supported quality targetExt enc image :
  let ext := Js.toLowerCase targetExt in
  ((ext = "jpg" \/ ext = "jpeg") /\ enc = JpegOptions quality true
   \/ ext = "webp" /\ enc = WebpOptions quality
   \/ ext = "png" /\ enc = PngOptions quality) ->
  MultiFormat.select_encoder quality targetExt image = sharp_format enc image.
Proof.
  intros ext Hsel. subst ext. unfold MultiFormat.select_encoder.
  destruct Hsel as [[[Hext | Hext] ->] | [[Hext ->] | [Hext ->]]];
    rewrite Hext; reflexivity.
Qed.

(** A call of [compressImage], step by step: the size of the input, the
    options, the encoder, the size of the output.  The first step that fails
    ends the call with the log of its error. *)
Lemma compressImage_steps inputPath outputPath quality targetExt enc w :
  let ext := Js.toLowerCase targetExt in
  let q := default 60%float quality in
  ((ext = "jpg" \/ ext = "jpeg") /\ enc = JpegOptions q true
   \/ ext = "webp" /\ enc = WebpOptions q
   \/ ext = "png" /\ enc = PngOptions q) ->
  let image := {| input := inputPath; encoder := Some enc |} in
  let failed w' calls e :=
    (inr None,
     State w'
       (calls ++ [ConsoleError ("Error compressing " +:+ inputPath +:+ ":") e]))
  in
  run (MultiFormat.compressImage inputPath outputPath quality (Some targetExt))
    w
  = match stat_size inputPath w with
    | inl e => failed w [] e
    | inr n =>
        match check_options enc with
        | inl e => failed w [] e
        | inr _ =>
            match toFile image outputPath w with
            | (inl e, w') => failed w' [ToFile image outputPath] e
            | (inr _, w') =>
                match stat_size outputPath w' with
                | inl e => failed w' [ToFile image outputPath] e
                | inr n' =>
                    let originalSize :=
                      (Number.of_size n / (1024 * 1024))%float in
                    let compressedSize :=
                      (Number.of_size n' / (1024 * 1024))%float in
                    (inr (Some {| originalSize := originalSize;
                                  compressedSize := compressedSize;
                                  savedSize := originalSize - compressedSize |}),
                     State w' [ToFile image outputPath])
                end
            end
        end
    end.
Proof.
  intros ext q Hsel image failed. subst ext q image failed.
  unfold run, MultiFormat.compressImage. cbv zeta. unfold default.
  cbn [from_option id].
  rewrite (select_encoder_supported _ _ enc) by exact Hsel.
  unfold_compress.
  destruct (stat_size inputPath w) as [e | n]; [reflexivity |]. cbn.
  destruct (check_options enc) as [e | []]; [reflexivity |]. cbn.
  destruct (toFile _ outputPath w) as [[e | []] w']; [reflexivity |]. cbn.
  destruct (stat_size outputPath w') as [e | n']; reflexivity.
Qed.

(** The JPEG-only call is the multi-format call with a JPEG target. *)
Lemma compressImage_jpeg_target inputPath outputPath quality targetExt s :
  Js.toLowerCase targetExt ∈ ["jpg"; "jpeg"] ->
  MultiFormat.compressImage inputPath outputPath
    (Some (default 80%float quality)) (Some targetExt) s
  = JpegOnly.compressImage inputPath outputPath quality s.
Proof.
  rewrite !elem_of_cons, elem_of_nil. intros Hext.
  unfold MultiFormat.compressImage, JpegOnly.compressImage. cbv zeta.
  rewrite (select_encoder_supported _ _
             (JpegOptions (default 80%float quality) true));
    [reflexivity |].
  left. split; [| reflexivity]. destruct Hext as [? | [? | []]]; auto.
Qed.

(** The calls of one call of [compressImage]: the encoder once and nothing
    else when it gives a result; else the error log, after at most one call
    of the encoder.  The instance handed to the encoder reads the input path
    and carries the options of the target. *)
Lemma compressImage_shape inputPath outputPath quality targetExt enc w :
  let ext := Js.toLowerCase targetExt in
  let q := default 60%float quality in
  ((ext = "jpg" \/ ext = "jpeg") /\ enc = JpegOptions q true
   \/ ext = "webp" /\ enc = WebpOptions q
   \/ ext = "png" /\ enc = PngOptions q
   \/ unsupported targetExt) ->
  let c :=
    MultiFormat.compressImage inputPath outputPath quality (Some targetExt) in
  let image := {| input := inputPath; encoder := Some enc |} in
  let line := "Error compressing " +:+ inputPath +:+ ":" in
  (exists r, returned (outcome c w) = Some r
             /\ events c w = [ToFile image outputPath])
  \/ (returned (outcome c w) = None
      /\ exists e, events c w = [ConsoleError line e]
                   \/ events c w = [ToFile image outputPath;
                                    ConsoleError line e]).
Proof.
  intros ext q Hsel c image line. subst ext q c image line.
  assert (Hcases :
    ((Js.toLowerCase targetExt = "jpg" \/ Js.toLowerCase targetExt = "jpeg")
     /\ enc = JpegOptions (default 60%float quality) true
     \/ Js.toLowerCase targetExt = "webp"
        /\ enc = WebpOptions (default 60%float quality)
     \/ Js.toLowerCase targetExt = "png"
        /\ enc = PngOptions (default 60%float quality))
    \/ unsupported targetExt) by tauto.
  clear Hsel. destruct Hcases as [Hsel | Hun].
  - unfold outcome, world_after, events.
    rewrite (compressImage_steps _ _ _ _ enc) by exact Hsel. cbv zeta.
    destruct (stat_size inputPath w) as [e | n]; [cbn; eauto 8 |].
    destruct (check_options enc) as [e | []]; [cbn; eauto 8 |].
    destruct (toFile _ outputPath w) as [[e | []] w']; [cbn; eauto 8 |].
    destruct (stat_size outputPath w') as [e | n']; cbn; eauto 8.
  - unfold outcome, world_after, events, run.
    rewrite (compressImage_unsupported _ _ _ _ _ _ Hun). cbn. eauto 8.
Qed.

Lemma jpeg_compressImage_shape inputPath outputPath quality w :
  let c := JpegOnly.compressImage inputPath outputPath quality in
  let image :=
    {| input := inputPath;
       encoder := Some (JpegOptions (default 80%float quality) true) |} in
  let line := "Error compressing " +:+ inputPath +:+ ":" in
  (exists r, returned (outcome c w) = Some r
             /\ events c w = [ToFile image outputPath])
  \/ (returned (outcome c w) = None
      /\ exists e, events c w = [ConsoleError line e]
                   \/ events c w = [ToFile image outputPath;
                                    ConsoleError line e]).
Proof.
  cbv zeta. unfold outcome, world_after, events, run.
  rewrite <- (compressImage_jpeg_target _ _ _ "jpg")
    by apply list_elem_of_here.
  apply (compressImage_shape inputPath outputPath
           (Some (default 80%float quality)) "jpg"). auto.
Qed.

(** The call of the encoder, when there is one. *)
Lemma compressImage_call inputPath outputPath quality targetExt enc w image
    out :
  let ext := Js.toLowerCase targetExt in
  let q := default 60%float quality in
  ((ext = "jpg" \/ ext = "jpeg") /\ enc = JpegOptions q true
   \/ ext = "webp" /\ enc = WebpOptions q
   \/ ext = "png" /\ enc = PngOptions q
   \/ unsupported targetExt) ->
  ToFile image out
  ∈ events
      (MultiFormat.compressImage inputPath outputPath quality (Some targetExt))
      w ->
  image = {| input := inputPath; encoder := Some enc |} /\ out = outputPath.
Proof.
  intros ext q Hsel Hin.
  destruct (compressImage_shape inputPath outputPath quality targetExt enc w
              Hsel) as [(r & _ & Hev) | (_ & e & [Hev | Hev])];
    rewrite Hev in Hin; calls_in Hin.
Qed.

(** The encoder is reached when the input size was read and the options
    were accepted. *)
Lemma compressImage_called inputPath outputPath quality targetExt enc w :
  let ext := Js.toLowerCase targetExt in
  let q := default 60%float quality in
  ((ext = "jpg" \/ ext = "jpeg") /\ enc = JpegOptions q true
   \/ ext = "webp" /\ enc = WebpOptions q
   \/ ext = "png" /\ enc = PngOptions q) ->
  (exists image,
     ToFile image outputPath
     ∈ events
         (MultiFormat.compressImage inputPath outputPath quality
            (Some targetExt)) w)
  <-> (exists n, stat_size inputPath w = inr n) /\ check_options enc = inr tt.
Proof.
  intros ext q Hsel. unfold events.
  rewrite (compressImage_steps _ _ _ _ enc) by exact Hsel. cbv zeta.
  destruct (stat_size inputPath w) as [e | n].
  { cbn. split; [intros [image Hin]; calls_in Hin | intros [[n [=]] _]]. }
  destruct (check_options enc) as [e | []].
  { cbn. split; [intros [image Hin]; calls_in Hin | intros [_ [=]]]. }
  split; [eauto |]. intros _. eexists.
  destruct (toFile _ outputPath w) as [[e | []] w'];
    [apply list_elem_of_here |].
  destruct (stat_size outputPath w') as [e | n']; apply list_elem_of_here.
Qed.

(** A call changes the world through the encoder only. *)
Lemma compressImage_leaves inputPath outputPath quality targetExt w :
  let c :=
    MultiFormat.compressImage inputPath outputPath quality (Some targetExt) in
  (encoder_calls (events c w) = [] /\ world_after c w = w)
  \/ (exists image,
        encoder_calls (events c w) = [(image, outputPath)]
        /\ world_after c w = snd (toFile image outputPath w)).
Proof.
  cbv zeta. destruct (switch_cases targetExt) as [Hext | Hun].
  - assert (Hsel : exists enc,
      (Js.toLowerCase targetExt = "jpg" \/ Js.toLowerCase targetExt = "jpeg")
      /\ enc = JpegOptions (default 60%float quality) true
      \/ Js.toLowerCase targetExt = "webp"
         /\ enc = WebpOptions (default 60%float quality)
      \/ Js.toLowerCase targetExt = "png"
         /\ enc = PngOptions (default 60%float quality))
      by (destruct Hext as [? | [? | ?]]; eauto 8).
    destruct Hsel as [enc Hsel]. unfold world_after, events.
    rewrite (compressImage_steps _ _ _ _ enc) by exact Hsel. cbv zeta.
    destruct (stat_size inputPath w) as [e | n]; [cbn; auto |].
    destruct (check_options enc) as [e | []]; [cbn; auto |].
    right. exists {| input := inputPath; encoder := Some enc |}.
    destruct (toFile _ outputPath w) as [[e | []] w']; [cbn; auto |].
    destruct (stat_size outputPath w') as [e | n']; cbn; auto.
  - left. unfold world_after, events, run.
    by rewrite (compressImage_unsupported _ _ _ _ _ _ Hun).
Qed.

End ShapeFacts.

(** ** The causes of a failed call *)

Section CauseFacts.
Context `{Platform}.

(** Each cause ends the call with the log of the error it raised. *)
Lemma compressImage_cause inputPath outputPath quality targetExt enc w e w'
    calls :
  selects (default 60%float quality) targetExt enc ->
  failure_cause inputPath outputPath enc w e w' calls ->
  run (MultiFormat.compressImage inputPath outputPath quality (Some targetExt))
    w
  = (inr None,
     State w'
       (calls ++ [ConsoleError ("Error compressing " +:+ inputPath +:+ ":") e])).
Proof.
  intros Hsel Hcause.
  rewrite (compressImage_steps _ _ _ _ enc) by exact Hsel. cbv zeta.
  destruct Hcause as [e He | n e Hn He | n e w' Hn Hok He
                      | n e w' Hn Hok Hw He];
    rewrite ?Hn, ?Hok, ?Hw, ?He; reflexivity.
Qed.

(** A call without a result has one of the causes. *)
Lemma compressImage_failed inputPath outputPath quality targetExt enc w :
  selects (default 60%float quality) targetExt enc ->
  returned
    (outcome
       (MultiFormat.compressImage inputPath outputPath quality
          (Some targetExt)) w) = None ->
  exists e w' calls, failure_cause inputPath outputPath enc w e w' calls.
Proof.
  intros Hsel. unfold outcome.
  rewrite (compressImage_steps _ _ _ _ enc) by exact Hsel. cbv zeta.
  destruct (stat_size inputPath w) as [e | n] eqn:Hn.
  { intros _. eexists _, _, _. by apply input_unreadable. }
  destruct (check_options enc) as [e | []] eqn:Hok.
  { intros _. eexists _, _, _. by eapply options_refused. }
  destruct (toFile _ outputPath w) as [[e | []] w'] eqn:Hw.
  { intros _. eexists _, _, _. by eapply encoder_failed. }
  destruct (stat_size outputPath w') as [e | n'] eqn:Hn'; [| discriminate].
  intros _. eexists _, _, _. by eapply output_unreadable.
Qed.

Lemma jpeg_compressImage_run_as inputPath outputPath quality w :
  run (JpegOnly.compressImage inputPath outputPath quality) w
  = run
      (MultiFormat.compressImage inputPath outputPath
         (Some (default 80%float quality)) (Some "jpg")) w.
Proof.
  unfold run.
  by rewrite (compressImage_jpeg_target _ _ _ "jpg")
    by apply list_elem_of_here.
Qed.

Lemma jpeg_selected (quality : float) :
  selects quality "jpg" (JpegOptions quality true).
Proof. left. split; [by left | reflexivity]. Qed.

(** A call that ran to no result, seen from the loop: the calls are
    appended, the totals stay, the loop goes on and returns. *)
Lemma attempt_failed_step sourceDir exportDir quality targetExt file rest index
    totalSavedSize totalOriginalSize w tr w' evs :
  let call := attempt sourceDir exportDir quality targetExt file in
  let loop :=
    MultiFormat.for_imageFiles sourceDir exportDir quality targetExt in
  run call w = (inr None, State w' evs) ->
  call (State w tr) = (inr None, State w' (tr ++ evs))
  /\ loop index (file :: rest) totalSavedSize totalOriginalSize (State w tr)
     = loop (S index) rest totalSavedSize totalOriginalSize
         (State w'
            (tr ++ [SpinnerText ("Compressing " +:+ file +:+ "...")] ++ evs
                ++ [BarUpdate (index + 1)]))
  /\ exists totals s',
       loop index (file :: rest) totalSavedSize totalOriginalSize (State w tr)
       = (inr totals, s').
Proof.
  intros call loop Hrun. subst loop. split; [| split].
  - subst call. unfold attempt. rewrite compressImage_run.
    fold (attempt sourceDir exportDir quality targetExt file).
    unfold outcome, world_after, events. by rewrite Hrun.
  - rewrite for_imageFiles_step. unfold iteration_events.
    fold call. unfold outcome, world_after, events. rewrite Hrun.
    cbn [fst snd world trace returned add_result app]. reflexivity.
  - rewrite for_imageFiles_run. eauto.
Qed.

Lemma jpeg_attempt_failed_step sourceDir exportDir quality file rest index
    totalSavedSize totalOriginalSize w tr w' evs :
  let call := jpeg_attempt sourceDir exportDir quality file in
  let loop := JpegOnly.for_imageFiles sourceDir exportDir quality in
  run call w = (inr None, State w' evs) ->
  call (State w tr) = (inr None, State w' (tr ++ evs))
  /\ loop index (file :: rest) totalSavedSize totalOriginalSize (State w tr)
     = loop (S index) rest totalSavedSize totalOriginalSize
         (State w'
            (tr ++ [SpinnerText ("Compressing " +:+ file +:+ "...")] ++ evs
                ++ [BarUpdate (index + 1)]))
  /\ exists totals s',
       loop index (file :: rest) totalSavedSize totalOriginalSize (State w tr)
       = (inr totals, s').
Proof.
  intros call loop Hrun. subst loop. split; [| split].
  - subst call. unfold jpeg_attempt. rewrite jpeg_compressImage_run.
    fold (jpeg_attempt sourceDir exportDir quality file).
    unfold outcome, world_after, events. by rewrite Hrun.
  - rewrite jpeg_for_imageFiles_step. unfold iteration_events.
    fold call. unfold outcome, world_after, events. rewrite Hrun.
    cbn [fst snd world trace returned add_result app]. reflexivity.
  - rewrite jpeg_for_imageFiles_run. eauto.
Qed.

End CauseFacts.

(** * The properties of the specification *)

(** C1 (the code does not do this): nothing stands before the division of
    the saved total by the original total.  When the original total is zero
    the percentage shown is [NaN], [Infinity] or [-Infinity]; when no file
    succeeded, both totals are zero and the summary reads
    [0.00 MB (NaN% space saved)].  This is so in both variants. *)
Theorem percentage_unguarded_when_total_is_zero `{Platform} sourceDir
    exportDir quality targetExt w files w1 :
  readdir sourceDir w = inr files ->
  List.filter image_pattern files <> [] ->
  ensureDir exportDir w = (inr tt, w1) ->
  let imageFiles := List.filter image_pattern files in
  let unguarded compress run :=
    let results := successes (attempts compress imageFiles (snd (now w1))) in
    ((total originalSize 0 results =? 0)%float = true ->
     exists percentage,
       percentage ∈ not_a_percentage
       /\ saved_line (total savedSize 0 results) percentage ∈ run)
    /\ (results = [] -> saved_line 0 "NaN" ∈ run) in
  unguarded (attempt sourceDir exportDir quality targetExt)
    (events
       (MultiFormat.compressImagesInDirectory sourceDir exportDir quality
          targetExt) w)
  /\ unguarded (jpeg_attempt sourceDir exportDir quality)
       (events
          (JpegOnly.compressImagesInDirectory sourceDir exportDir quality) w).
Proof.
  intros Hdir Hsome Hmk imageFiles unguarded. subst unguarded. cbv beta zeta.
  rewrite (batch_run_events _ _ _ _ _ _ _ Hdir Hsome Hmk).
  rewrite (jpeg_batch_run_events _ _ _ _ _ _ Hdir Hsome Hmk).
  fold imageFiles. unfold summary_lines, saved_line.
  repeat split.
  - intros Hzero. eexists. split; [by apply percentage_of_zero_total |].
    rewrite !elem_of_app. do 3 right. rewrite !elem_of_cons. auto.
  - intros ->. rewrite !elem_of_app. do 3 right. rewrite !elem_of_cons. auto.
  - intros Hzero. eexists. split; [by apply percentage_of_zero_total |].
    rewrite !elem_of_app. do 3 right. rewrite !elem_of_cons. auto.
  - intros ->. rewrite !elem_of_app. do 3 right. rewrite !elem_of_cons. auto.
Qed.

(** A directory whose only image is an empty file: the run prints [NaN]. *)
Lemma percentage_unguarded_on_empty_image :
  ConsoleLog "Total Saved Size: 0.00 MB (NaN% space saved)"
  ∈ events
      (MultiFormat.compressImagesInDirectory (H := Toy.platform) "shots" "out"
         80%float "webp") Toy.broken.
Proof.
  refine (proj2 (proj1 (percentage_unguarded_when_total_is_zero
                          (H := Toy.platform) "shots" "out" 80%float "webp"
                          Toy.broken ["empty.jpg"; "notes.md"]
                          (snd (Toy.toy_ensureDir "out" Toy.broken))
                          _ _ _)) _).
  - vm_compute. reflexivity.
  - vm_compute. discriminate.
  - vm_compute. reflexivity.
  - vm_compute. reflexivity.
Defined.

(** C2, as amended: in the multi-format variant, the destination of a
    discovered file is the export directory joined with the part of the name
    before its last dot, a dot and the target extension, so the original
    extension is replaced; only a name that starts with its one dot (such as
    [.jpg]) is kept whole, the dot and the target extension coming after it.
    This path is the only one handed to the encoder for the file. *)
Theorem destination_replaces_extension `{Platform} sourceDir exportDir quality
    targetExt file w :
  image_pattern file = true ->
  slash_free file ->
  exists stem ext,
    file = stem +:+ "." +:+ ext
    /\ Js.toLowerCase ext ∈ recognized
    /\ MultiFormat.outputPath exportDir file targetExt
       = Path.join exportDir
           ((if bool_decide (stem = "") then file else stem)
            +:+ "." +:+ targetExt)
    /\ (forall image out,
          ToFile image out
          ∈ events (attempt sourceDir exportDir quality targetExt file) w ->
          out = MultiFormat.outputPath exportDir file targetExt).
Proof.
  intros Himage Hfree.
  apply image_pattern_extension in Himage as (stem & ext & -> & Hext).
  exists stem, ext. split; [done |]. split; [done |]. split.
  - unfold MultiFormat.outputPath. by rewrite parse_name_image.
  - intros image out. apply compressImage_destination.
Qed.

(** [b.PNG] with target [webp]. *)
Lemma destination_example :
  exists stem ext,
    "b.PNG" = stem +:+ "." +:+ ext
    /\ Js.toLowerCase ext ∈ recognized
    /\ MultiFormat.outputPath "out" "b.PNG" "webp"
       = Path.join "out"
           ((if bool_decide (stem = "") then "b.PNG" else stem)
            +:+ "." +:+ "webp")
    /\ (forall image out,
          ToFile image out
          ∈ events
              (attempt (H := Toy.platform) "photos" "out" 80%float "webp"
                 "b.PNG") Toy.photos ->
          out = MultiFormat.outputPath "out" "b.PNG" "webp").
Proof.
  apply (destination_replaces_extension (H := Toy.platform) "photos" "out"
           80%float "webp" "b.PNG" Toy.photos); vm_compute; reflexivity.
Defined.

(** The destinations of some names, computed. *)
Example destinations_computed :
  map (fun file => MultiFormat.outputPath "out" file "webp")
    ["a.jpg"; "b.PNG"; "archive.tar.jpeg"; ".jpg"; "..png"]
  = ["out/a.webp"; "out/b.webp"; "out/archive.tar.webp"; "out/.jpg.webp";
     "out/..webp"].
Proof. vm_compute. reflexivity. Qed.

(** The name [.jpg] is recognized as an image, and its destination for the
    target [webp] is [.jpg.webp]: the target extension comes after the whole
    name, where replacing the extension would give [.webp].  And in the
    JPEG-only variant [b.PNG] is encoded as JPEG under the name [b.PNG]. *)
Lemma destination_of_dot_name_appends :
  image_pattern ".jpg" = true
  /\ ".jpg" = "" +:+ "." +:+ "jpg"
  /\ MultiFormat.outputPath "out" ".jpg" "webp" = "out/.jpg.webp"
  /\ MultiFormat.outputPath "out" ".jpg" "webp"
     <> Path.join "out" ("" +:+ "." +:+ "webp")
  /\ events (jpeg_attempt (H := Toy.platform) "photos" "out" 80%float "b.PNG")
       Toy.photos
     = [ToFile {| input := "photos/b.PNG";
                  encoder := Some (JpegOptions 80%float true) |}
          "out/b.PNG"].
Proof.
  repeat split; try (vm_compute; reflexivity).
  vm_compute. discriminate.
Qed.

(** The JPEG-only variant has no target format: the one path it hands to the
    encoder is the export directory joined with the unchanged name, so a PNG
    is written as JPEG under its [.PNG] name. *)
Lemma jpeg_only_keeps_the_name `{Platform} sourceDir exportDir quality file w
    image out :
  ToFile image out ∈ events (jpeg_attempt sourceDir exportDir quality file) w ->
  out = Path.join exportDir file.
Proof. apply jpeg_compressImage_destination. Qed.

(** C3, as amended: when the target extension, lower-cased, is none of jpg,
    jpeg, png and webp, [compressImage] returns the failure outcome, leaves
    the world as it was and makes one call only, the error log that names the
    input path; the encoder is not called.  The loop then goes on with the
    remaining files, the totals unchanged. *)
Theorem unsupported_target_fails_file `{Platform} sourceDir exportDir quality
    targetExt file rest index totalSavedSize totalOriginalSize w tr :
  unsupported targetExt ->
  let inputPath := Path.join sourceDir file in
  let outputPath := MultiFormat.outputPath exportDir file targetExt in
  let logged :=
    ConsoleError ("Error compressing " +:+ inputPath +:+ ":")
      (unsupported_error inputPath targetExt w) in
  MultiFormat.compressImage inputPath outputPath (Some quality)
    (Some targetExt) (State w tr)
  = (inr None, State w (tr ++ [logged]))
  /\ List.filter is_encoder_call [logged] = []
  /\ MultiFormat.for_imageFiles sourceDir exportDir quality targetExt index
       (file :: rest) totalSavedSize totalOriginalSize (State w tr)
     = MultiFormat.for_imageFiles sourceDir exportDir quality targetExt
         (S index) rest totalSavedSize totalOriginalSize
         (State w
            (tr ++ [SpinnerText ("Compressing " +:+ file +:+ "..."); logged;
                    BarUpdate (index + 1)])).
Proof.
  intros Hun inputPath outputPath logged.
  pose proof (compressImage_unsupported inputPath outputPath (Some quality)
                targetExt w [] Hun) as Hrun.
  split; [by apply compressImage_unsupported |]. split; [reflexivity |].
  rewrite for_imageFiles_step. unfold iteration_events.
  unfold attempt, outcome, world_after, events, run.
  fold inputPath outputPath. rewrite Hrun.
  cbn [fst snd world trace returned add_result app].
  reflexivity.
Qed.

(** The target [gif], on the first of two files. *)
Lemma unsupported_target_example :
  let logged :=
    ConsoleError "Error compressing photos/a.jpg:"
      (Error "Unsupported target extension: gif") in
  MultiFormat.compressImage (H := Toy.platform) "photos/a.jpg" "out/a.gif"
    (Some 80%float) (Some "gif") (Toy.start Toy.photos)
  = (inr None, @State Toy.platform Toy.photos [logged])
  /\ List.filter is_encoder_call [logged] = []
  /\ MultiFormat.for_imageFiles (H := Toy.platform) "photos" "out" 80%float
       "gif" 0 ["a.jpg"; "b.PNG"] 0%float 0%float (Toy.start Toy.photos)
     = MultiFormat.for_imageFiles (H := Toy.platform) "photos" "out" 80%float
         "gif" 1 ["b.PNG"] 0%float 0%float
         (@State Toy.platform Toy.photos
            [SpinnerText "Compressing a.jpg..."; logged; BarUpdate 1]).
Proof.
  apply (unsupported_target_fails_file (H := Toy.platform) "photos" "out"
           80%float "gif" "a.jpg" ["b.PNG"] 0%nat 0%float 0%float
           Toy.photos []).
  unfold unsupported. vm_compute. intros Hin.
  repeat (apply elem_of_cons in Hin as [Heq | Hin]; [discriminate |]).
  by apply elem_of_nil in Hin.
Defined.

(** The target [JPG] is none of the four strings, and the file is encoded
    as JPEG all the same. *)
Lemma upper_case_target_is_encoded :
  let call :=
    MultiFormat.compressImage (H := Toy.platform) "photos/a.jpg" "out/a.JPG"
      (Some 80%float) (Some "JPG") in
  ("JPG" ∉ ["jpg"; "jpeg"; "png"; "webp"])
  /\ outcome call Toy.photos
     = inr (Some {| originalSize := 2; compressedSize := 1; savedSize := 1 |})
  /\ events call Toy.photos
     = [ToFile {| input := "photos/a.jpg";
                  encoder := Some (JpegOptions 80%float true) |}
          "out/a.JPG"].
Proof.
  split; [| split; vm_compute; reflexivity].
  intros Hin.
  repeat (apply elem_of_cons in Hin as [Heq | Hin]; [discriminate |]).
  by apply elem_of_nil in Hin.
Qed.

(** C4: every failure of a file is logged with its input path and skipped.
    A call of [compressImage] can fail because the target extension has no
    case in the switch, because the size of the input cannot be read,
    because the codec refuses the options, because the encoder fails (an
    input it cannot decode, an output it cannot write) or because the size
    of the output cannot be read.  For each of these causes the call returns
    no result, and the last call it made logs, under the input path, the
    very error that was raised; the loop then goes on with the next file,
    the totals unchanged, having added only the spinner text, the calls of
    [compressImage] and the progress update, and it returns.  Conversely a
    call without a result has one of these causes.  This holds in both
    variants; the JPEG-only one has no switch. *)
Theorem failure_is_logged_and_skipped `{Platform} sourceDir exportDir quality
    targetExt file rest index totalSavedSize totalOriginalSize w tr :
  let inputPath := Path.join sourceDir file in
  let line := "Error compressing " +:+ inputPath +:+ ":" in
  let skipped (call : M (option CompressionResult))
      (loop : nat -> list string -> float -> float -> M (float * float))
      e w' calls :=
    call (State w tr)
    = (inr None, State w' (tr ++ calls ++ [ConsoleError line e]))
    /\ loop index (file :: rest) totalSavedSize totalOriginalSize (State w tr)
       = loop (S index) rest totalSavedSize totalOriginalSize
           (State w'
              (tr ++ [SpinnerText ("Compressing " +:+ file +:+ "...")]
                  ++ (calls ++ [ConsoleError line e])
                  ++ [BarUpdate (index + 1)]))
    /\ exists totals s',
         loop index (file :: rest) totalSavedSize totalOriginalSize
           (State w tr)
         = (inr totals, s') in
  let handled (call : M (option CompressionResult)) loop
      (cause : error -> World -> list event -> Prop) :=
    (forall e w' calls, cause e w' calls -> skipped call loop e w' calls)
    /\ (returned (outcome call w) = None ->
        exists e w' calls, cause e w' calls) in
  handled (attempt sourceDir exportDir quality targetExt file)
    (MultiFormat.for_imageFiles sourceDir exportDir quality targetExt)
    (fun e w' calls =>
       unsupported targetExt
       /\ (e, w', calls) = (unsupported_error inputPath targetExt w, w, [])
       \/ exists enc,
            selects quality targetExt enc
            /\ failure_cause inputPath
                 (MultiFormat.outputPath exportDir file targetExt) enc w e w'
                 calls)
  /\ handled (jpeg_attempt sourceDir exportDir quality file)
       (JpegOnly.for_imageFiles sourceDir exportDir quality)
       (failure_cause inputPath (Path.join exportDir file)
          (JpegOptions quality true) w).
Proof.
  intros inputPath line skipped handled. subst skipped handled. cbv beta.
  split; split.
  - intros e w' calls [[Hun Heq] | (enc & Hsel & Hcause)].
    + injection Heq as -> -> ->.
      apply attempt_failed_step. unfold run, attempt.
      by rewrite (compressImage_unsupported _ _ _ _ _ _ Hun).
    + apply attempt_failed_step. unfold attempt.
      by apply (compressImage_cause _ _ (Some quality) _ enc).
  - intros Hfailed.
    destruct (switch_cases targetExt) as [Hext | Hun].
    + assert (Hsel : exists enc, selects quality targetExt enc).
      { unfold selects. destruct Hext as [? | [? | ?]]; eauto 8. }
      destruct Hsel as [enc Hsel].
      destruct (compressImage_failed _ _ (Some quality) _ enc w Hsel Hfailed)
        as (e & w' & calls & Hcause).
      exists e, w', calls. right. by exists enc.
    + eexists _, _, _. left. split; [exact Hun | reflexivity].
  - intros e w' calls Hcause.
    apply jpeg_attempt_failed_step. unfold jpeg_attempt.
    rewrite jpeg_compressImage_run_as.
    apply (compressImage_cause _ _ (Some (default 80%float (Some quality)))
             "jpg" (JpegOptions quality true)); [apply jpeg_selected | done].
  - intros Hfailed. unfold jpeg_attempt, outcome in Hfailed.
    rewrite jpeg_compressImage_run_as in Hfailed.
    apply (compressImage_failed _ _ (Some (default 80%float (Some quality)))
             "jpg" (JpegOptions quality true) w (jpeg_selected _) Hfailed).
Qed.

(** An empty file, which the codec rejects: the encoder fails, in both
    variants. *)
Lemma failure_is_logged_example :
  let logged :=
    ConsoleError "Error compressing shots/empty.jpg:"
      (Error "Input file contains unsupported image format") in
  let webp :=
    ToFile {| input := "shots/empty.jpg";
              encoder := Some (WebpOptions 80%float) |} "out/empty.webp" in
  let jpeg :=
    ToFile {| input := "shots/empty.jpg";
              encoder := Some (JpegOptions 80%float true) |} "out/empty.jpg" in
  let skipped (call : M (option CompressionResult))
      (loop : nat -> list string -> float -> float -> M (float * float))
      encoded :=
    call (Toy.start Toy.broken)
    = (inr None, @State Toy.platform Toy.broken ([] ++ [encoded] ++ [logged]))
    /\ loop 0%nat ["empty.jpg"] 0%float 0%float
         (Toy.start Toy.broken)
       = loop 1%nat [] 0%float 0%float
           (@State Toy.platform Toy.broken
              ([] ++ [SpinnerText "Compressing empty.jpg..."]
                  ++ ([encoded] ++ [logged]) ++ [BarUpdate (0 + 1)]))
    /\ exists totals s',
         loop 0%nat ["empty.jpg"] 0%float 0%float
           (Toy.start Toy.broken)
         = (inr totals, s') in
  skipped
    (attempt (H := Toy.platform) "shots" "out" 80%float "webp" "empty.jpg")
    (MultiFormat.for_imageFiles (H := Toy.platform) "shots" "out" 80%float
       "webp") webp
  /\ skipped (jpeg_attempt (H := Toy.platform) "shots" "out" 80%float "empty.jpg")
       (JpegOnly.for_imageFiles (H := Toy.platform) "shots" "out" 80%float)
       jpeg.
Proof.
  split.
  - apply (proj1 (proj1 (failure_is_logged_and_skipped (H := Toy.platform)
                           "shots" "out" 80%float "webp" "empty.jpg"
                           [] 0%nat 0%float 0%float Toy.broken []))
             (Error "Input file contains unsupported image format") Toy.broken
             [ToFile {| input := "shots/empty.jpg";
                        encoder := Some (WebpOptions 80%float) |}
                "out/empty.webp"]).
    right. exists (WebpOptions 80%float). split.
    + right. left. split; vm_compute; reflexivity.
    + apply (encoder_failed (H := Toy.platform) "shots/empty.jpg"
               "out/empty.webp" (WebpOptions 80%float) Toy.broken 0);
        vm_compute; reflexivity.
  - apply (proj1 (proj2 (failure_is_logged_and_skipped (H := Toy.platform)
                           "shots" "out" 80%float "webp" "empty.jpg"
                           [] 0%nat 0%float 0%float Toy.broken []))
             (Error "Input file contains unsupported image format") Toy.broken
             [ToFile {| input := "shots/empty.jpg";
                        encoder := Some (JpegOptions 80%float true) |}
                "out/empty.jpg"]).
    apply (encoder_failed (H := Toy.platform) "shots/empty.jpg"
             "out/empty.jpg" (JpegOptions 80%float true) Toy.broken 0);
      vm_compute; reflexivity.
Defined.

(** Other causes, computed: the output cannot be written, the input is
    gone, the codec refuses the quality. *)
Example failure_causes_computed :
  events (attempt (H := Toy.platform) "in" "out" 80%float "webp" "x.jpg")
    Cases.occupied
  = [ ToFile {| input := "in/x.jpg"; encoder := Some (WebpOptions 80%float) |}
        "out/x.webp";
      ConsoleError "Error compressing in/x.jpg:"
        (Error "EISDIR: illegal operation on a directory, open out/x.webp") ]
  /\ events (jpeg_attempt (H := Toy.platform) "pics" "out" 80%float "gone.jpg")
       Cases.album
     = [ ConsoleError "Error compressing pics/gone.jpg:"
           (Error "ENOENT: no such file or directory, stat pics/gone.jpg") ]
  /\ events (attempt (H := Toy.platform) "pics" "out" 0%float "webp" "x.jpg")
       Cases.album
     = [ ConsoleError "Error compressing pics/x.jpg:"
           (Error "Expected a quality in range") ].
Proof. repeat split; vm_compute; reflexivity. Qed.

(** C5: when the listing of the source directory holds no qualifying name,
    the run logs the no-images line and does nothing more: the world is as it
    was (no export directory is made, [ensureDir] is not even called) and no
    summary is printed.  This holds in both variants. *)
Theorem no_images_no_further_work `{Platform} sourceDir exportDir quality
    targetExt w tr files :
  readdir sourceDir w = inr files ->
  List.filter image_pattern files = [] ->
  let reported :=
    (inr tt,
     State w
       (tr ++ [ConsoleLog "No image files found in the specified directory."]))
  in
  MultiFormat.compressImagesInDirectory sourceDir exportDir quality targetExt
    (State w tr) = reported
  /\ JpegOnly.compressImagesInDirectory sourceDir exportDir quality
       (State w tr) = reported.
Proof.
  intros Hdir Hnone reported. split.
  - by apply run_no_images with files.
  - by apply jpeg_run_no_images with files.
Qed.

(** A directory of documents. *)
Lemma no_images_example :
  let reported :=
    (inr tt,
     @State Toy.platform Toy.documents
       [ConsoleLog "No image files found in the specified directory."]) in
  MultiFormat.compressImagesInDirectory (H := Toy.platform) "docs" "out"
    80%float "webp" (Toy.start Toy.documents) = reported
  /\ JpegOnly.compressImagesInDirectory (H := Toy.platform) "docs" "out"
       80%float (Toy.start Toy.documents) = reported.
Proof.
  apply (no_images_no_further_work (H := Toy.platform) "docs" "out" 80%float
           "webp" Toy.documents [] ["readme.md"; "jpg"; "photo.jpg.bak"]);
    vm_compute; reflexivity.
Defined.

(** C6: in a run that reaches the summary, the calls of the run are the
    start-up calls, the calls of the iterations and the summary, whose
    [Total Images] is the number of discovered files (one attempt each),
    whose total original size is the [originalSize] of the successful
    results added up in order from zero, and whose total saved size is their
    [savedSize] added up likewise; failed attempts add nothing.  This holds
    in both variants. *)
Theorem summary_totals_over_successes `{Platform} sourceDir exportDir quality
    targetExt w files w1 :
  readdir sourceDir w = inr files ->
  List.filter image_pattern files <> [] ->
  ensureDir exportDir w = (inr tt, w1) ->
  let imageFiles := List.filter image_pattern files in
  let w2 := snd (now w1) in
  let summarized compress run :=
    let results := attempts compress imageFiles w2 in
    length results = length imageFiles
    /\ run
       = [EnsureDir exportDir; SpinnerStart "Starting compression...";
          BarStart (length imageFiles) 0]
         ++ batch_events compress 0 imageFiles w2
         ++ [BarStop; SpinnerSucceed "Compression completed!"]
         ++ summary_lines (length imageFiles)
              (total savedSize 0 (successes results))
              (total originalSize 0 (successes results))
              (fst (now w1))
              (fst (now (world_after_all compress imageFiles w2))) in
  summarized (attempt sourceDir exportDir quality targetExt)
    (events
       (MultiFormat.compressImagesInDirectory sourceDir exportDir quality
          targetExt) w)
  /\ summarized (jpeg_attempt sourceDir exportDir quality)
       (events
          (JpegOnly.compressImagesInDirectory sourceDir exportDir quality) w).
Proof.
  intros Hdir Hsome Hmk imageFiles w2 summarized. subst summarized.
  split; (split; [apply attempts_length |]).
  - by rewrite (batch_run_events _ _ _ _ _ _ _ Hdir Hsome Hmk).
  - by rewrite (jpeg_batch_run_events _ _ _ _ _ _ Hdir Hsome Hmk).
Qed.

(** Two files that compress and a subdirectory that does not. *)
Lemma summary_totals_example :
  let imageFiles := ["a.jpg"; "b.PNG"; "album.png"] in
  let w1 := snd (Toy.toy_ensureDir "out" Toy.photos) in
  let w2 := snd (Toy.toy_now w1) in
  let compress := attempt (H := Toy.platform) "photos" "out" 80%float "jpg" in
  let results := attempts compress imageFiles w2 in
  length results = 3%nat
  /\ events
       (MultiFormat.compressImagesInDirectory (H := Toy.platform) "photos"
          "out" 80%float "jpg") Toy.photos
     = [EnsureDir "out"; SpinnerStart "Starting compression..."; BarStart 3 0]
       ++ batch_events compress 0 imageFiles w2
       ++ [BarStop; SpinnerSucceed "Compression completed!"]
       ++ summary_lines 3
            (total savedSize 0 (successes results))
            (total originalSize 0 (successes results))
            (fst (Toy.toy_now w1))
            (fst (Toy.toy_now (world_after_all compress imageFiles w2))).
Proof.
  refine (proj1 (summary_totals_over_successes (H := Toy.platform)
                   "photos" "out" 80%float "jpg" Toy.photos
                   ["a.jpg"; "b.PNG"; "c.txt"; "album.png"]
                   (snd (Toy.toy_ensureDir "out" Toy.photos)) _ _ _)).
  - vm_compute. reflexivity.
  - vm_compute. discriminate.
  - vm_compute. reflexivity.
Defined.

(** The run of the example, computed: two successes and one failure. *)
Example summary_totals_computed :
  attempts (attempt (H := Toy.platform) "photos" "out" 80%float "jpg")
    ["a.jpg"; "b.PNG"; "album.png"]
    (snd (Toy.toy_now (snd (Toy.toy_ensureDir "out" Toy.photos))))
  = [ Some {| originalSize := 2; compressedSize := 1; savedSize := 1 |};
      Some {| originalSize := 1; compressedSize := 0.5; savedSize := 0.5 |};
      None ]
  /\ skipn 15
       (events
          (MultiFormat.compressImagesInDirectory (H := Toy.platform) "photos"
             "out" 80%float "jpg") Toy.photos)
     = [ BarStop; SpinnerSucceed "Compression completed!";
         summary_header;
         ConsoleLog "Total Images: 3";
         ConsoleLog "Total Original Size: 3.00 MB";
         ConsoleLog "Total Saved Size: 1.50 MB (50.00% space saved)";
         ConsoleLog "Time Taken: 0.50 seconds" ].
Proof. split; vm_compute; reflexivity. Qed.

(** C7, as amended: Discovery keeps, in listing order, exactly the entry
    names that end in a dot followed by jpg, jpeg, png or webp in any letter
    case, and drops the others.  It looks at names only: what kind of entry
    a name stands for plays no part. *)
Theorem discovery_retains_by_extension (files : list string) :
  retained files (List.filter image_pattern files).
Proof.
  induction files as [| name names IH]; cbn [List.filter]; [constructor |].
  destruct (image_pattern name) eqn:Hname.
  - apply retained_keep; [by apply image_pattern_extension | done].
  - apply retained_drop; [| done].
    intros Hext%image_pattern_extension. congruence.
Qed.

(** [album.png] is a subdirectory of the listed directory; Discovery keeps
    its name, and the run hands it to the encoder. *)
Lemma subdirectory_is_discovered :
  Toy.lookup_path "photos/album.png" (Toy.nodes Toy.photos)
  = Some (Toy.Directory [])
  /\ readdir (Platform := Toy.platform) "photos" Toy.photos
     = inr ["a.jpg"; "b.PNG"; "c.txt"; "album.png"]
  /\ List.filter image_pattern ["a.jpg"; "b.PNG"; "c.txt"; "album.png"]
     = ["a.jpg"; "b.PNG"; "album.png"]
  /\ nth_error
       (events
          (MultiFormat.compressImagesInDirectory (H := Toy.platform) "photos"
             "out" 80%float "jpg") Toy.photos) 12
     = Some (ToFile {| input := "photos/album.png";
                       encoder := Some (JpegOptions 80%float true) |}
               "out/album.jpg").
Proof. repeat split; vm_compute; reflexivity. Qed.

(** C8: a result returned by [compressImage], in either variant, holds the
    byte count of the input file read from disk before the encoder ran and
    the byte count of the output file read after it, both in MB, and
    [savedSize] is the first minus the second.  Nothing keeps the difference
    from being negative: the example below is a file that grows. *)
Theorem savedSize_is_difference_of_disk_sizes `{Platform} inputPath outputPath
    quality targetExt s r s' :
  MultiFormat.compressImage inputPath outputPath quality targetExt s
  = (inr (Some r), s')
  \/ JpegOnly.compressImage inputPath outputPath quality s
     = (inr (Some r), s') ->
  sizes_measured inputPath outputPath (world s) (world s') r
  /\ savedSize r = (originalSize r - compressedSize r)%float
  /\ exists image, toFile image outputPath (world s) = (inr tt, world s').
Proof.
  destruct s as [w tr]. intros [Hrun | Hrun].
  - rewrite compressImage_run in Hrun. injection Hrun as Hr <-.
    by apply compressImage_success_sizes.
  - rewrite jpeg_compressImage_run in Hrun. injection Hrun as Hr <-.
    by apply jpeg_compressImage_success_sizes.
Qed.

(** A JPEG written as PNG grows: the saved size is negative. *)
Lemma savedSize_negative_example :
  let r := {| originalSize := 2; compressedSize := 4.00006103515625;
              savedSize := (-2.00006103515625) |} in
  let s' :=
    snd (MultiFormat.compressImage (H := Toy.platform) "photos/a.jpg"
           "out/a.png" (Some 80%float) (Some "png") (Toy.start Toy.photos)) in
  (sizes_measured (H := Toy.platform) "photos/a.jpg" "out/a.png"
     Toy.photos (world s') r
   /\ savedSize r = (originalSize r - compressedSize r)%float
   /\ exists image,
        toFile (Platform := Toy.platform) image "out/a.png" Toy.photos
        = (inr tt, world s'))
  /\ (savedSize r <? 0)%float = true.
Proof.
  intros r s'. split; [| vm_compute; reflexivity].
  refine (savedSize_is_difference_of_disk_sizes (H := Toy.platform)
            "photos/a.jpg" "out/a.png" (Some 80%float) (Some "png")
            (Toy.start Toy.photos) r s' (or_introl _)).
  vm_compute. reflexivity.
Defined.

(** C9: every turn of the loop, whether the call of [compressImage] returned
    a result or not, makes exactly one progress update, as its last call, to
    the index plus one; so the updates of a whole run are those to 1, 2, ...,
    up to the number of discovered files, and that number is the value the
    bar shows at the end.  This holds in both variants. *)
Theorem progress_bar_counts_every_file `{Platform} sourceDir exportDir quality
    targetExt w files w1 :
  readdir sourceDir w = inr files ->
  List.filter image_pattern files <> [] ->
  ensureDir exportDir w = (inr tt, w1) ->
  let imageFiles := List.filter image_pattern files in
  let counted run :=
    List.filter is_bar_update run
    = map BarUpdate (seq 1 (length imageFiles))
    /\ bar_value run = Some (length imageFiles) in
  (counted
     (events
        (MultiFormat.compressImagesInDirectory sourceDir exportDir quality
           targetExt) w)
   /\ forall index file rest totalSavedSize totalOriginalSize w' tr,
        exists totals w'' before,
          MultiFormat.for_imageFiles sourceDir exportDir quality targetExt
            index (file :: rest) totalSavedSize totalOriginalSize
            (State w' tr)
          = MultiFormat.for_imageFiles sourceDir exportDir quality targetExt
              (S index) rest (fst totals) (snd totals)
              (State w'' (tr ++ before ++ [BarUpdate (index + 1)]))
          /\ List.filter is_bar_update before = [])
  /\
  (counted
     (events (JpegOnly.compressImagesInDirectory sourceDir exportDir quality)
        w)
   /\ forall index file rest totalSavedSize totalOriginalSize w' tr,
        exists totals w'' before,
          JpegOnly.for_imageFiles sourceDir exportDir quality
            index (file :: rest) totalSavedSize totalOriginalSize
            (State w' tr)
          = JpegOnly.for_imageFiles sourceDir exportDir quality
              (S index) rest (fst totals) (snd totals)
              (State w'' (tr ++ before ++ [BarUpdate (index + 1)]))
          /\ List.filter is_bar_update before = []).
Proof.
  intros Hdir Hsome Hmk imageFiles counted. subst counted. cbv beta.
  split; split.
  - rewrite (batch_run_events _ _ _ _ _ _ _ Hdir Hsome Hmk). fold imageFiles.
    split.
    + cbn [app List.filter is_bar_update].
      rewrite List.filter_app, batch_bar_updates by apply attempt_events.
      cbn [app List.filter is_bar_update Nat.add]. by rewrite app_nil_r.
    + unfold bar_value. cbn [app fold_left bar_step].
      rewrite fold_left_app, batch_bar_value by apply attempt_events.
      reflexivity.
  - intros index file rest tS tO w' tr.
    destruct (iteration_bar_updates
                (attempt sourceDir exportDir quality targetExt)
                (attempt_events sourceDir exportDir quality targetExt)
                index file w') as (before & Heq & Hnone & _).
    eexists _, _, before. split; [| exact Hnone].
    rewrite for_imageFiles_step. by rewrite Heq.
  - rewrite (jpeg_batch_run_events _ _ _ _ _ _ Hdir Hsome Hmk).
    fold imageFiles. split.
    + cbn [app List.filter is_bar_update].
      rewrite List.filter_app, batch_bar_updates by apply jpeg_attempt_events.
      cbn [app List.filter is_bar_update Nat.add]. by rewrite app_nil_r.
    + unfold bar_value. cbn [app fold_left bar_step].
      rewrite fold_left_app, batch_bar_value by apply jpeg_attempt_events.
      reflexivity.
  - intros index file rest tS tO w' tr.
    destruct (iteration_bar_updates
                (jpeg_attempt sourceDir exportDir quality)
                (jpeg_attempt_events sourceDir exportDir quality)
                index file w') as (before & Heq & Hnone & _).
    eexists _, _, before. split; [| exact Hnone].
    rewrite jpeg_for_imageFiles_step. by rewrite Heq.
Qed.

(** Three files that all fail: the bar still ends at 3. *)
Lemma progress_bar_example :
  let run :=
    events
      (MultiFormat.compressImagesInDirectory (H := Toy.platform) "photos"
         "out" 80%float "gif") Toy.photos in
  List.filter is_bar_update run = [BarUpdate 1; BarUpdate 2; BarUpdate 3]
  /\ bar_value run = Some 3%nat.
Proof.
  refine (proj1 (proj1 (progress_bar_counts_every_file (H := Toy.platform)
                          "photos" "out" 80%float "gif" Toy.photos
                          ["a.jpg"; "b.PNG"; "c.txt"; "album.png"]
                          (snd (Toy.toy_ensureDir "out" Toy.photos)) _ _ _))).
  - vm_compute. reflexivity.
  - vm_compute. discriminate.
  - vm_compute. reflexivity.
Defined.

(** C10, as amended: the summary is printed exactly in the runs in which the
    source directory was listed, at least one image file was discovered and
    the export directory could be ensured; when every file then fails, it
    carries the number of attempted files and totals of zero.  A run whose
    listing fails, which discovers nothing, or which cannot make the export
    directory prints no summary.  This holds in both variants. *)
Theorem summary_printed_iff_batch_ran `{Platform} sourceDir exportDir quality
    targetExt w :
  let batch_ran :=
    exists files,
      readdir sourceDir w = inr files
      /\ List.filter image_pattern files <> []
      /\ fst (ensureDir exportDir w) = inr tt in
  let zero_summary compress run :=
    forall files w1,
      readdir sourceDir w = inr files ->
      List.filter image_pattern files <> [] ->
      ensureDir exportDir w = (inr tt, w1) ->
      successes
        (attempts compress (List.filter image_pattern files) (snd (now w1)))
      = [] ->
      exists before startTime endTime,
        run = before
              ++ summary_lines (length (List.filter image_pattern files))
                   0 0 startTime endTime in
  let run :=
    events
      (MultiFormat.compressImagesInDirectory sourceDir exportDir quality
         targetExt) w in
  let jpeg_run :=
    events (JpegOnly.compressImagesInDirectory sourceDir exportDir quality) w
  in
  ((summary_header ∈ run <-> batch_ran)
   /\ zero_summary (attempt sourceDir exportDir quality targetExt) run)
  /\ ((summary_header ∈ jpeg_run <-> batch_ran)
      /\ zero_summary (jpeg_attempt sourceDir exportDir quality) jpeg_run).
Proof.
  intros batch_ran zero_summary run jpeg_run.
  subst batch_ran zero_summary run jpeg_run. cbv beta.
  destruct (readdir sourceDir w) as [e | files] eqn:Hdir.
  { rewrite (events_of_run _ _ _ _ _
               (run_unreadable sourceDir exportDir quality targetExt w [] e Hdir)).
    rewrite (events_of_run _ _ _ _ _
               (jpeg_run_unreadable sourceDir exportDir quality w [] e Hdir)).
    cbn [app]. rewrite list_elem_of_singleton.
    repeat split; try discriminate; intros (files & [=] & _). }
  destruct (decide (List.filter image_pattern files = [])) as [Hnone | Hsome].
  { rewrite (events_of_run _ _ _ _ _
               (run_no_images sourceDir exportDir quality targetExt w [] files
                  Hdir Hnone)).
    rewrite (events_of_run _ _ _ _ _
               (jpeg_run_no_images sourceDir exportDir quality w [] files
                  Hdir Hnone)).
    cbn [app]. rewrite list_elem_of_singleton.
    repeat split; try discriminate;
      try (intros (files' & [= <-] & Hsome & _); done);
      intros files' w1 [= <-] Hsome; done. }
  destruct (ensureDir exportDir w) as [[e | []] w1] eqn:Hmk.
  { rewrite (events_of_run _ _ _ _ _
               (run_no_export_dir sourceDir exportDir quality targetExt w []
                  files e w1 Hdir Hsome Hmk)).
    rewrite (events_of_run _ _ _ _ _
               (jpeg_run_no_export_dir sourceDir exportDir quality w []
                  files e w1 Hdir Hsome Hmk)).
    cbn [app fst]. rewrite !elem_of_cons, elem_of_nil.
    repeat split; try (intros [? | [? | []]]; discriminate);
      try (intros (files' & _ & _ & [=])); intros files' w1' _ _ [=]. }
  rewrite (batch_run_events _ _ _ _ _ _ _ Hdir Hsome Hmk).
  rewrite (jpeg_batch_run_events _ _ _ _ _ _ Hdir Hsome Hmk).
  cbn [fst snd].
  repeat split.
  - intros _. by exists files.
  - intros _. rewrite !elem_of_app. do 3 right.
    apply summary_header_in_summary.
  - intros files' w1' [= <-] _ [= <-] Hfailed. rewrite Hfailed.
    cbn [total fold_left]. eexists _, _, _. rewrite !app_assoc. reflexivity.
  - intros _. by exists files.
  - intros _. rewrite !elem_of_app. do 3 right.
    apply summary_header_in_summary.
  - intros files' w1' [= <-] _ [= <-] Hfailed. rewrite Hfailed.
    cbn [total fold_left]. eexists _, _, _. rewrite !app_assoc. reflexivity.
Qed.

(** The only file fails, and the summary is printed. *)
Lemma summary_printed_example :
  summary_header
  ∈ events
      (MultiFormat.compressImagesInDirectory (H := Toy.platform) "shots" "out"
         80%float "webp") Toy.broken.
Proof.
  refine (proj2 (proj1 (proj1 (summary_printed_iff_batch_ran
                                 (H := Toy.platform) "shots" "out" 80%float
                                 "webp" Toy.broken))) _).
  exists ["empty.jpg"; "notes.md"]. vm_compute.
  split; [reflexivity | split; [discriminate | reflexivity]].
Defined.

(** The example computed: every file failed, and the summary is there. *)
Example summary_of_failures_computed :
  events
    (MultiFormat.compressImagesInDirectory (H := Toy.platform) "shots" "out"
       80%float "webp") Toy.broken
  = [ EnsureDir "out"; SpinnerStart "Starting compression..."; BarStart 1 0;
      SpinnerText "Compressing empty.jpg...";
      ToFile {| input := "shots/empty.jpg";
                encoder := Some (WebpOptions 80%float) |} "out/empty.webp";
      ConsoleError "Error compressing shots/empty.jpg:"
        (Error "Input file contains unsupported image format");
      BarUpdate 1; BarStop; SpinnerSucceed "Compression completed!";
      summary_header;
      ConsoleLog "Total Images: 1";
      ConsoleLog "Total Original Size: 0.00 MB";
      ConsoleLog "Total Saved Size: 0.00 MB (NaN% space saved)";
      ConsoleLog "Time Taken: 0.00 seconds" ].
Proof. vm_compute. reflexivity. Qed.

(** An image is discovered, but a regular file has the name of the export
    directory: [ensureDir] throws, the error is logged and no summary is
    printed. *)
Lemma no_summary_when_export_dir_fails :
  let run :=
    events
      (MultiFormat.compressImagesInDirectory (H := Toy.platform) "in" "out"
         80%float "webp") Toy.blocked in
  readdir (Platform := Toy.platform) "in" Toy.blocked = inr ["x.webp"]
  /\ List.filter image_pattern ["x.webp"] = ["x.webp"]
  /\ run = [ EnsureDir "out";
             ConsoleError "Error processing directory:"
               (Error "EEXIST: file already exists, mkdir out") ]
  /\ summary_header ∉ run.
Proof.
  split; [vm_compute; reflexivity |]. split; [vm_compute; reflexivity |].
  assert (Hrun :
    events
      (MultiFormat.compressImagesInDirectory (H := Toy.platform) "in" "out"
         80%float "webp") Toy.blocked
    = [ EnsureDir "out";
        ConsoleError "Error processing directory:"
          (Error "EEXIST: file already exists, mkdir out") ])
    by (vm_compute; reflexivity).
  cbv zeta. rewrite Hrun. split; [reflexivity |].
  rewrite !not_elem_of_cons. repeat split; try discriminate.
  apply not_elem_of_nil.
Qed.

(** * Further properties of the code *)

(** ** What the calls add up to over the loop *)

Section TraceFacts.

Lemma encoder_calls_app (tr tr' : list event) :
  encoder_calls (tr ++ tr') = encoder_calls tr ++ encoder_calls tr'.
Proof.
  induction tr as [| e tr IH]; [reflexivity |].
  destruct e; cbn; by rewrite ?IH.
Qed.

End TraceFacts.

Section BatchCalls.
Context `{Platform}.
Variable compress : string -> M (option CompressionResult).
Variable call_of : string -> Sharp * string.
Hypothesis compress_shape :
  forall file w,
    (exists r, returned (outcome (compress file) w) = Some r
               /\ events (compress file) w
                  = [ToFile (call_of file).1 (call_of file).2])
    \/ (returned (outcome (compress file) w) = None
        /\ exists line e,
             events (compress file) w = [ConsoleError line e]
             \/ events (compress file) w
                = [ToFile (call_of file).1 (call_of file).2;
                   ConsoleError line e]).

Ltac shape_cases file w :=
  destruct (compress_shape file w)
    as [(r & -> & ->) | (-> & line & e & [-> | ->])].

(** The encoder is called at most once for a file, in the order of the
    files. *)
Lemma batch_encoder_calls files :
  forall index w,
    encoder_calls (batch_events compress index files w)
    `sublist_of` map call_of files.
Proof.
  induction files as [| file rest IH]; intros index w; [constructor |].
  cbn [batch_events map]. unfold iteration_events.
  rewrite !encoder_calls_app.
  specialize (IH (S index) (world_after (compress file) w)).
  shape_cases file w; cbn [encoder_calls app].
  - destruct (call_of file). by constructor.
  - by constructor.
  - destruct (call_of file). by constructor.
Qed.

(** The lines on the console are those of the files with a result. *)
Lemma batch_console_logs files :
  forall index w,
    List.filter is_console_log (batch_events compress index files w)
    = file_lines files (attempts compress files w).
Proof.
  induction files as [| file rest IH]; intros index w; [reflexivity |].
  cbn [batch_events attempts file_lines]. unfold iteration_events.
  rewrite !List.filter_app, IH.
  shape_cases file w; reflexivity.
Qed.

(** One error log for each file without a result. *)
Lemma batch_error_logs files :
  forall index w,
    (length (List.filter is_error_log (batch_events compress index files w))
     + length (successes (attempts compress files w)))%nat
    = length files.
Proof.
  induction files as [| file rest IH]; intros index w; [reflexivity |].
  cbn [batch_events attempts]. unfold iteration_events.
  rewrite !List.filter_app, !length_app.
  specialize (IH (S index) (world_after (compress file) w)).
  shape_cases file w; cbn [List.filter is_error_log successes length app] in *;
    lia.
Qed.

(** The spinner names every file, in order. *)
Lemma batch_spinner_texts files :
  forall index w,
    List.filter is_spinner_text (batch_events compress index files w)
    = map (fun file => SpinnerText ("Compressing " +:+ file +:+ "...")) files.
Proof.
  induction files as [| file rest IH]; intros index w; [reflexivity |].
  cbn [batch_events map]. unfold iteration_events.
  rewrite !List.filter_app, IH.
  shape_cases file w; reflexivity.
Qed.

Lemma file_lines_length files :
  forall w,
    length (file_lines files (attempts compress files w))
    = length (successes (attempts compress files w)).
Proof.
  induction files as [| file rest IH]; intros w; [reflexivity |].
  cbn [attempts]. destruct (returned _); cbn; by rewrite ?IH.
Qed.

End BatchCalls.

(** Two ways to compress a file that run alike give the same loop. *)
Section BatchExt.
Context `{Platform}.
Variables compress compress' : string -> M (option CompressionResult).

Lemma batch_ext files :
  Forall (fun file => forall w, run (compress file) w = run (compress' file) w)
    files ->
  forall index w,
    attempts compress files w = attempts compress' files w
    /\ world_after_all compress files w = world_after_all compress' files w
    /\ batch_events compress index files w
       = batch_events compress' index files w.
Proof.
  induction 1 as [| file rest Hfile _ IH]; intros index w; [done |].
  cbn [attempts world_after_all batch_events].
  unfold iteration_events, outcome, world_after, events.
  rewrite Hfile.
  destruct (IH (S index) (world (snd (run (compress' file) w))))
    as (-> & -> & ->).
  done.
Qed.
End BatchExt.


(** ** The calls of the loop of each variant *)

Section AttemptFacts.
Context `{Platform}.

Lemma attempt_shape sourceDir exportDir quality targetExt enc file w :
  let ext := Js.toLowerCase targetExt in
  ((ext = "jpg" \/ ext = "jpeg") /\ enc = JpegOptions quality true
   \/ ext = "webp" /\ enc = WebpOptions quality
   \/ ext = "png" /\ enc = PngOptions quality
   \/ unsupported targetExt) ->
  let compress := attempt sourceDir exportDir quality targetExt in
  let image := {| input := Path.join sourceDir file; encoder := Some enc |} in
  let out := MultiFormat.outputPath exportDir file targetExt in
  (exists r, returned (outcome (compress file) w) = Some r
             /\ events (compress file) w = [ToFile image out])
  \/ (returned (outcome (compress file) w) = None
      /\ exists line e,
           events (compress file) w = [ConsoleError line e]
           \/ events (compress file) w = [ToFile image out;
                                          ConsoleError line e]).
Proof.
  intros ext Hsel compress image out. subst ext compress image out.
  destruct (compressImage_shape (Path.join sourceDir file)
              (MultiFormat.outputPath exportDir file targetExt) (Some quality)
              targetExt enc w Hsel)
    as [Hok | (Hnone & e & Hev)]; [by left |].
  right. split; [exact Hnone |]. by eexists _, e.
Qed.

Lemma jpeg_attempt_shape sourceDir exportDir quality file w :
  let compress := jpeg_attempt sourceDir exportDir quality in
  let image :=
    {| input := Path.join sourceDir file;
       encoder := Some (JpegOptions quality true) |} in
  let out := Path.join exportDir file in
  (exists r, returned (outcome (compress file) w) = Some r
             /\ events (compress file) w = [ToFile image out])
  \/ (returned (outcome (compress file) w) = None
      /\ exists line e,
           events (compress file) w = [ConsoleError line e]
           \/ events (compress file) w = [ToFile image out;
                                          ConsoleError line e]).
Proof.
  cbv zeta.
  destruct (jpeg_compressImage_shape (Path.join sourceDir file)
              (Path.join exportDir file) (Some quality) w)
    as [Hok | (Hnone & e & Hev)]; [by left |].
  right. split; [exact Hnone |]. by eexists _, e.
Qed.

(** The options the switch sets for a target, if it has a case for it. *)
Lemma target_selects quality targetExt :
  exists enc,
    let ext := Js.toLowerCase targetExt in
    (ext = "jpg" \/ ext = "jpeg") /\ enc = JpegOptions quality true
    \/ ext = "webp" /\ enc = WebpOptions quality
    \/ ext = "png" /\ enc = PngOptions quality
    \/ unsupported targetExt.
Proof.
  destruct (switch_cases targetExt) as [[Hext | [Hext | Hext]] | Hun];
    cbv zeta;
    [eauto 8 | eauto 8 | eauto 8 | exists (JpegOptions quality true); auto 6].
Qed.

(** With an unsupported target no file has a result, nothing is encoded and
    the world stays as it is. *)
Lemma unsupported_batch sourceDir exportDir quality targetExt files :
  unsupported targetExt ->
  forall index w,
    let compress := attempt sourceDir exportDir quality targetExt in
    successes (attempts compress files w) = []
    /\ world_after_all compress files w = w
    /\ encoder_calls (batch_events compress index files w) = [].
Proof.
  intros Hun. cbv zeta.
  induction files as [| file rest IH]; intros index w; [done |].
  cbn [attempts world_after_all batch_events]. unfold iteration_events.
  assert (Hrun :
    run (attempt sourceDir exportDir quality targetExt file) w
    = (inr None,
       State w
         [ConsoleError ("Error compressing " +:+ Path.join sourceDir file +:+ ":")
            (unsupported_error (Path.join sourceDir file) targetExt w)])).
  { unfold run, attempt.
    by rewrite (compressImage_unsupported _ _ _ _ _ _ Hun). }
  unfold outcome, world_after, events. rewrite Hrun.
  cbn [fst snd world trace returned successes].
  destruct (IH (S index) w) as (Hs & Hw & Hc).
  rewrite !encoder_calls_app, Hc.
  repeat split; done.
Qed.

(** The error logs and the successes of a batch of the multi-format
    variant add up to the files. *)
Lemma every_file_logged sourceDir exportDir quality targetExt w files w1 :
  readdir sourceDir w = inr files ->
  List.filter image_pattern files <> [] ->
  ensureDir exportDir w = (inr tt, w1) ->
  let imageFiles := List.filter image_pattern files in
  (length
     (List.filter is_error_log
        (events
           (MultiFormat.compressImagesInDirectory sourceDir exportDir quality
              targetExt) w))
   + length
       (successes
          (attempts (attempt sourceDir exportDir quality targetExt) imageFiles
             (snd (now w1)))))%nat
  = length imageFiles.
Proof.
  intros Hdir Hsome Hmk imageFiles.
  destruct (target_selects quality targetExt) as [enc Hsel].
  rewrite (batch_run_events _ _ _ _ _ _ _ Hdir Hsome Hmk).
  fold imageFiles.
  rewrite !List.filter_app; unfold summary_lines;
    cbn [List.filter is_error_log app]; rewrite app_nil_r.
  apply (batch_error_logs _
           (fun file =>
              ({| input := Path.join sourceDir file; encoder := Some enc |},
               MultiFormat.outputPath exportDir file targetExt))).
  intros file w'. by apply attempt_shape.
Qed.

End AttemptFacts.

(** ** Errors never escape *)

(** X1: [compressImage] never throws.  Whatever the file system and the
    codec answer, every error raised inside the call (reading a size, setting
    the options, the switch on the target extension, writing the output) is
    caught there, and the caller gets a result or nothing.  This holds in
    both variants. *)
Theorem compressImage_never_throws `{Platform} inputPath outputPath quality
    targetExt s :
  (exists result s',
     MultiFormat.compressImage inputPath outputPath quality targetExt s
     = (inr result, s'))
  /\ (exists result s',
        JpegOnly.compressImage inputPath outputPath quality s
        = (inr result, s')).
Proof.
  destruct s as [w tr]. split; eexists _, _.
  - apply compressImage_run.
  - apply jpeg_compressImage_run.
Qed.

(** X2: [compressImagesInDirectory] never throws: a listing that fails, an
    export directory that cannot be made and every failure of a file end in
    a normal return, in both variants. *)
Theorem run_never_throws `{Platform} sourceDir exportDir quality targetExt s :
  fst (MultiFormat.compressImagesInDirectory sourceDir exportDir quality
         targetExt s) = inr tt
  /\ fst (JpegOnly.compressImagesInDirectory sourceDir exportDir quality s)
     = inr tt.
Proof.
  destruct s as [w tr].
  destruct (readdir sourceDir w) as [e | files] eqn:Hdir.
  { by rewrite (run_unreadable _ _ _ _ _ _ _ Hdir),
      (jpeg_run_unreadable _ _ _ _ _ _ Hdir). }
  destruct (decide (List.filter image_pattern files = [])) as [Hnone | Hsome].
  { by rewrite (run_no_images _ _ _ _ _ _ _ Hdir Hnone),
      (jpeg_run_no_images _ _ _ _ _ _ Hdir Hnone). }
  destruct (ensureDir exportDir w) as [[e | []] w1] eqn:Hmk.
  { by rewrite (run_no_export_dir _ _ _ _ _ _ _ _ _ Hdir Hsome Hmk),
      (jpeg_run_no_export_dir _ _ _ _ _ _ _ _ Hdir Hsome Hmk). }
  by rewrite (run_batch _ _ _ _ _ _ _ _ Hdir Hsome Hmk),
    (jpeg_run_batch _ _ _ _ _ _ _ Hdir Hsome Hmk).
Qed.

(** X3: when the source directory cannot be listed, the run logs that one
    error under [Error processing directory:] and does nothing else: the
    export directory is not made, nothing is printed on the console, and the
    world is left as it was.  This holds in both variants. *)
Theorem unreadable_source_is_reported `{Platform} sourceDir exportDir quality
    targetExt w tr e :
  readdir sourceDir w = inl e ->
  let reported :=
    (inr tt, State w (tr ++ [ConsoleError "Error processing directory:" e])) in
  MultiFormat.compressImagesInDirectory sourceDir exportDir quality targetExt
    (State w tr) = reported
  /\ JpegOnly.compressImagesInDirectory sourceDir exportDir quality
       (State w tr) = reported.
Proof.
  intros Hdir reported. split.
  - by apply run_unreadable.
  - by apply jpeg_run_unreadable.
Qed.

(** A source directory that is not there. *)
Lemma unreadable_source_example :
  let reported :=
    (inr tt,
     @State Toy.platform Toy.photos
       [ConsoleError "Error processing directory:"
          (Error "ENOENT: no such file or directory, scandir nowhere")]) in
  MultiFormat.compressImagesInDirectory (H := Toy.platform) "nowhere" "out"
    80%float "webp" (Toy.start Toy.photos) = reported
  /\ JpegOnly.compressImagesInDirectory (H := Toy.platform) "nowhere" "out"
       80%float (Toy.start Toy.photos) = reported.
Proof.
  apply (unreadable_source_is_reported (H := Toy.platform) "nowhere" "out"
           80%float "webp" Toy.photos []
           (Error "ENOENT: no such file or directory, scandir nowhere")).
  vm_compute. reflexivity.
Defined.

(** X4: when images were found but the export directory cannot be made, the
    run stops there: its calls are the attempt to make the directory and the
    log of its error, so no spinner, no progress bar, no encoder call and no
    summary; the world is the one [ensureDir] left.  This holds in both
    variants. *)
Theorem export_dir_failure_stops_the_run `{Platform} sourceDir exportDir
    quality targetExt w tr files e w1 :
  readdir sourceDir w = inr files ->
  List.filter image_pattern files <> [] ->
  ensureDir exportDir w = (inl e, w1) ->
  let stopped :=
    (inr tt,
     State w1
       (tr ++ [EnsureDir exportDir;
               ConsoleError "Error processing directory:" e])) in
  MultiFormat.compressImagesInDirectory sourceDir exportDir quality targetExt
    (State w tr) = stopped
  /\ JpegOnly.compressImagesInDirectory sourceDir exportDir quality
       (State w tr) = stopped.
Proof.
  intros Hdir Hsome Hmk stopped. split.
  - by eapply run_no_export_dir.
  - by eapply jpeg_run_no_export_dir.
Qed.

(** A regular file has the name of the export directory. *)
Lemma export_dir_failure_example :
  let stopped :=
    (inr tt,
     @State Toy.platform Toy.blocked
       [EnsureDir "out";
        ConsoleError "Error processing directory:"
          (Error "EEXIST: file already exists, mkdir out")]) in
  MultiFormat.compressImagesInDirectory (H := Toy.platform) "in" "out"
    80%float "webp" (Toy.start Toy.blocked) = stopped
  /\ JpegOnly.compressImagesInDirectory (H := Toy.platform) "in" "out"
       80%float (Toy.start Toy.blocked) = stopped.
Proof.
  apply (export_dir_failure_stops_the_run (H := Toy.platform) "in" "out"
           80%float "webp" Toy.blocked [] ["x.webp"]
           (Error "EEXIST: file already exists, mkdir out") Toy.blocked).
  - vm_compute. reflexivity.
  - vm_compute. discriminate.
  - vm_compute. reflexivity.
Defined.

(** ** The encoder and its options *)

(** X5: the encoder a call of the multi-format [compressImage] runs is the
    one of the lower-cased target extension: JPEG with [mozjpeg] on for
    [jpg] and [jpeg], WebP for [webp], PNG for [png].  It reads the input
    path, is given the quality unchanged (60 when none is passed) and writes
    to the output path. *)
Theorem encoder_follows_target `{Platform} inputPath outputPath quality
    targetExt w image out :
  ToFile image out
  ∈ events
      (MultiFormat.compressImage inputPath outputPath quality (Some targetExt))
      w ->
  let ext := Js.toLowerCase targetExt in
  let q := default 60%float quality in
  input image = inputPath /\ out = outputPath
  /\ ((ext = "jpg" \/ ext = "jpeg")
        /\ encoder image = Some (JpegOptions q true)
      \/ ext = "webp" /\ encoder image = Some (WebpOptions q)
      \/ ext = "png" /\ encoder image = Some (PngOptions q)).
Proof.
  intros Hin ext q. subst ext q.
  destruct (switch_cases targetExt) as [[Hext | [Hext | Hext]] | Hun].
  - destruct (compressImage_call inputPath outputPath quality targetExt
                (JpegOptions (default 60%float quality) true) w image out)
      as [-> ->]; auto.
  - destruct (compressImage_call inputPath outputPath quality targetExt
                (WebpOptions (default 60%float quality)) w image out)
      as [-> ->]; auto 6.
  - destruct (compressImage_call inputPath outputPath quality targetExt
                (PngOptions (default 60%float quality)) w image out)
      as [-> ->]; auto 6.
  - unfold events, run in Hin.
    rewrite (compressImage_unsupported _ _ _ _ _ _ Hun) in Hin.
    cbn in Hin. calls_in Hin.
Qed.

(** A PNG source with the target [WebP]. *)
Lemma encoder_follows_target_example :
  let image :=
    {| input := "photos/b.PNG"; encoder := Some (WebpOptions 75%float) |} in
  input image = "photos/b.PNG" /\ "out/b.WebP" = "out/b.WebP"
  /\ ((Js.toLowerCase "WebP" = "jpg" \/ Js.toLowerCase "WebP" = "jpeg")
        /\ encoder image = Some (JpegOptions 75%float true)
      \/ Js.toLowerCase "WebP" = "webp"
         /\ encoder image = Some (WebpOptions 75%float)
      \/ Js.toLowerCase "WebP" = "png"
         /\ encoder image = Some (PngOptions 75%float)).
Proof.
  apply (encoder_follows_target (H := Toy.platform) "photos/b.PNG"
           "out/b.WebP" (Some 75%float) "WebP" Toy.photos
           {| input := "photos/b.PNG"; encoder := Some (WebpOptions 75%float) |}
           "out/b.WebP").
  vm_compute. apply list_elem_of_here.
Defined.

(** X6: the JPEG-only [compressImage] encodes every input as JPEG with
    [mozjpeg] on, whatever its extension: the one instance it hands to the
    encoder reads the input path and carries the quality unchanged (80 when
    none is passed), and it is written to the output path. *)
Theorem jpeg_only_always_encodes_jpeg `{Platform} inputPath outputPath quality
    w image out :
  ToFile image out
  ∈ events (JpegOnly.compressImage inputPath outputPath quality) w ->
  image = {| input := inputPath;
             encoder := Some (JpegOptions (default 80%float quality) true) |}
  /\ out = outputPath.
Proof.
  intros Hin.
  destruct (jpeg_compressImage_shape inputPath outputPath quality w)
    as [(r & _ & Hev) | (_ & e & [Hev | Hev])];
    rewrite Hev in Hin; calls_in Hin.
Qed.

(** A PNG source, no quality given. *)
Lemma jpeg_only_encodes_png_as_jpeg :
  {| input := "photos/b.PNG"; encoder := Some (JpegOptions 80%float true) |}
  = {| input := "photos/b.PNG";
       encoder := Some (JpegOptions (default 80%float None) true) |}
  /\ "out/b.PNG" = "out/b.PNG".
Proof.
  apply (jpeg_only_always_encodes_jpeg (H := Toy.platform) "photos/b.PNG"
           "out/b.PNG" None Toy.photos).
  vm_compute. apply list_elem_of_here.
Defined.

(** ** The two variants side by side *)

(** X7: with a target extension that lower-cases to [jpg] or [jpeg], a call
    of the multi-format [compressImage] is the call of the JPEG-only one
    with the same paths and quality: same result, same world, same calls,
    from every state. *)
Theorem jpeg_target_is_the_jpeg_only_call `{Platform} inputPath outputPath
    quality targetExt s :
  Js.toLowerCase targetExt ∈ ["jpg"; "jpeg"] ->
  MultiFormat.compressImage inputPath outputPath (Some quality)
    (Some targetExt) s
  = JpegOnly.compressImage inputPath outputPath (Some quality) s.
Proof.
  intros Hext.
  apply (compressImage_jpeg_target inputPath outputPath (Some quality)
           targetExt s Hext).
Qed.

(** The target [JPEG]. *)
Lemma jpeg_target_example :
  MultiFormat.compressImage (H := Toy.platform) "photos/a.jpg" "out/a.JPEG"
    (Some 80%float) (Some "JPEG") (Toy.start Toy.photos)
  = JpegOnly.compressImage (H := Toy.platform) "photos/a.jpg" "out/a.JPEG"
      (Some 80%float) (Toy.start Toy.photos).
Proof.
  apply (jpeg_target_is_the_jpeg_only_call (H := Toy.platform) "photos/a.jpg"
           "out/a.JPEG" 80%float "JPEG" (Toy.start Toy.photos)).
  vm_compute. apply list_elem_of_further, list_elem_of_here.
Defined.

(** X8: when the target extension lower-cases to [jpg] or [jpeg] and every
    discovered file already carries it (the name without its extension,
    a dot and the target extension give the name back), a run of the
    multi-format variant is a run of the JPEG-only variant: same calls in
    the same order, same world, from every state. *)
Theorem variants_agree_on_jpeg_names `{Platform} sourceDir exportDir quality
    targetExt s :
  Js.toLowerCase targetExt ∈ ["jpg"; "jpeg"] ->
  (forall files,
     readdir sourceDir (world s) = inr files ->
     Forall (fun file => Path.parse_name file +:+ "." +:+ targetExt = file)
       (List.filter image_pattern files)) ->
  MultiFormat.compressImagesInDirectory sourceDir exportDir quality targetExt s
  = JpegOnly.compressImagesInDirectory sourceDir exportDir quality s.
Proof.
  intros Hext Hnames. destruct s as [w tr]. cbn [world] in Hnames.
  destruct (readdir sourceDir w) as [e | files] eqn:Hdir.
  { by rewrite (run_unreadable _ _ _ _ _ _ _ Hdir),
      (jpeg_run_unreadable _ _ _ _ _ _ Hdir). }
  destruct (decide (List.filter image_pattern files = [])) as [Hnone | Hsome].
  { by rewrite (run_no_images _ _ _ _ _ _ _ Hdir Hnone),
      (jpeg_run_no_images _ _ _ _ _ _ Hdir Hnone). }
  destruct (ensureDir exportDir w) as [[e | []] w1] eqn:Hmk.
  { by rewrite (run_no_export_dir _ _ _ _ _ _ _ _ _ Hdir Hsome Hmk),
      (jpeg_run_no_export_dir _ _ _ _ _ _ _ _ Hdir Hsome Hmk). }
  rewrite (run_batch _ _ _ _ _ _ _ _ Hdir Hsome Hmk),
    (jpeg_run_batch _ _ _ _ _ _ _ Hdir Hsome Hmk).
  assert (Hsame :
    Forall (fun file => forall w',
              run (attempt sourceDir exportDir quality targetExt file) w'
              = run (jpeg_attempt sourceDir exportDir quality file) w')
      (List.filter image_pattern files)).
  { eapply Forall_impl; [exact (Hnames files eq_refl) |].
    intros file Hname w'. unfold run, attempt, jpeg_attempt.
    unfold MultiFormat.outputPath. rewrite Hname.
    by apply (compressImage_jpeg_target _ _ (Some quality)). }
  destruct (batch_ext _ _ _ Hsame 0%nat (snd (now w1))) as (-> & -> & ->).
  reflexivity.
Qed.

(** A directory of [.jpg] files with the target [jpg]. *)
Lemma variants_agree_example :
  MultiFormat.compressImagesInDirectory (H := Toy.platform) "pics" "out"
    80%float "jpg" (Toy.start Cases.album)
  = JpegOnly.compressImagesInDirectory (H := Toy.platform) "pics" "out"
      80%float (Toy.start Cases.album).
Proof.
  apply (variants_agree_on_jpeg_names (H := Toy.platform) "pics" "out"
           80%float "jpg" (Toy.start Cases.album)).
  - vm_compute. apply list_elem_of_here.
  - intros files Hfiles. vm_compute in Hfiles. injection Hfiles as <-.
    vm_compute. repeat constructor.
Defined.

(** ** When the encoder runs, and what a call leaves behind *)

(** An equivalence whose right side lists the cases of the switch, one of
    which is the case at hand. *)
Ltac one_case :=
  split;
  [ intros [? ?]; auto 7
  | intros [? ?]; destruct_or?; destruct_and?; destruct_or?; try done; auto ].

(** X9: a call of [compressImage] reaches the encoder exactly when the size
    of the input could be read and the options were accepted (in the
    multi-format variant: those of a target extension the switch has a case
    for).  So a missing input, an unsupported target and refused options all
    fail the file before anything is written. *)
Theorem encoder_called_iff `{Platform} inputPath outputPath quality targetExt
    w :
  let ext := Js.toLowerCase targetExt in
  let q := default 60%float quality in
  let readable := exists n, stat_size inputPath w = inr n in
  let accepted enc := check_options enc = inr tt in
  let called (c : M (option CompressionResult)) :=
    exists image, ToFile image outputPath ∈ events c w in
  (called
     (MultiFormat.compressImage inputPath outputPath quality (Some targetExt))
   <-> readable
       /\ ((ext = "jpg" \/ ext = "jpeg") /\ accepted (JpegOptions q true)
           \/ ext = "webp" /\ accepted (WebpOptions q)
           \/ ext = "png" /\ accepted (PngOptions q)))
  /\ (called (JpegOnly.compressImage inputPath outputPath quality)
      <-> readable
          /\ accepted (JpegOptions (default 80%float quality) true)).
Proof.
  intros ext q readable accepted called.
  subst ext q readable accepted called. cbv beta. split.
  - destruct (switch_cases targetExt) as [[Hext | [Hext | Hext]] | Hun].
    + rewrite (compressImage_called _ _ _ _
                 (JpegOptions (default 60%float quality) true)) by auto.
      destruct Hext as [Hext | Hext]; rewrite Hext; one_case.
    + rewrite (compressImage_called _ _ _ _
                 (WebpOptions (default 60%float quality))) by auto.
      rewrite Hext; one_case.
    + rewrite (compressImage_called _ _ _ _
                 (PngOptions (default 60%float quality))) by auto 6.
      rewrite Hext; one_case.
    + unfold events, run.
      rewrite (compressImage_unsupported _ _ _ _ _ _ Hun). cbn.
      revert Hun. unfold unsupported, recognized.
      rewrite !not_elem_of_cons. intros (Hjpg & Hjpeg & Hpng & Hwebp & _).
      split; [intros [image Hin]; calls_in Hin |].
      intros [_ [[[? | ?] _] | [[? _] | [? _]]]]; done.
  - assert (Hsame :
      events (JpegOnly.compressImage inputPath outputPath quality) w
      = events
          (MultiFormat.compressImage inputPath outputPath
             (Some (default 80%float quality)) (Some "jpg")) w).
    { unfold events, run.
      by rewrite (compressImage_jpeg_target _ _ _ "jpg")
        by apply list_elem_of_here. }
    rewrite Hsame.
    apply (compressImage_called inputPath outputPath
             (Some (default 80%float quality)) "jpg"). auto.
Qed.

(** X10: a call of [compressImage] calls the encoder at most once and
    changes the world through that call only.  When the encoder was not
    called the world is as before; when it was, the world is the one the
    encoder left, also when the call then failed: nothing is removed or
    rolled back.  This holds in both variants. *)
Theorem call_changes_world_through_encoder_only `{Platform} inputPath
    outputPath quality targetExt w :
  let leaves (c : M (option CompressionResult)) :=
    (encoder_calls (events c w) = [] /\ world_after c w = w)
    \/ (exists image,
          encoder_calls (events c w) = [(image, outputPath)]
          /\ world_after c w = snd (toFile image outputPath w)) in
  leaves
    (MultiFormat.compressImage inputPath outputPath quality (Some targetExt))
  /\ leaves (JpegOnly.compressImage inputPath outputPath quality).
Proof.
  cbv zeta. split; [apply compressImage_leaves |].
  unfold world_after, events, run.
  rewrite <- (compressImage_jpeg_target _ _ _ "jpg")
    by apply list_elem_of_here.
  apply (compressImage_leaves inputPath outputPath
           (Some (default 80%float quality)) "jpg").
Qed.

(** ** The calls of a whole run *)

(** X11: the encoder is only ever given discovered files.  Its calls in a
    run are, in the order of the listing and at most one for each discovered
    file, the file under the source directory written to its destination
    under the export directory, all with the same options; an entry that
    Discovery dropped is never encoded and no file is encoded twice.  In the
    JPEG-only variant the options are JPEG with [mozjpeg] on and the
    destination keeps the name. *)
Theorem encoder_only_on_discovered_files `{Platform} sourceDir exportDir
    quality targetExt w files :
  readdir sourceDir w = inr files ->
  let imageFiles := List.filter image_pattern files in
  (exists enc,
     encoder_calls
       (events
          (MultiFormat.compressImagesInDirectory sourceDir exportDir quality
             targetExt) w)
     `sublist_of`
     map (fun file =>
            ({| input := Path.join sourceDir file; encoder := Some enc |},
             MultiFormat.outputPath exportDir file targetExt))
       imageFiles)
  /\ encoder_calls
       (events (JpegOnly.compressImagesInDirectory sourceDir exportDir quality)
          w)
     `sublist_of`
     map (fun file =>
            ({| input := Path.join sourceDir file;
                encoder := Some (JpegOptions quality true) |},
             Path.join exportDir file))
       imageFiles.
Proof.
  intros Hdir imageFiles. subst imageFiles.
  destruct (target_selects quality targetExt) as [enc Hsel].
  destruct (decide (List.filter image_pattern files = [])) as [Hnone | Hsome].
  { rewrite (events_of_run _ _ _ _ _
               (run_no_images sourceDir exportDir quality targetExt w [] files
                  Hdir Hnone)).
    rewrite (events_of_run _ _ _ _ _
               (jpeg_run_no_images sourceDir exportDir quality w [] files
                  Hdir Hnone)).
    rewrite Hnone. split; [exists enc |]; constructor. }
  destruct (ensureDir exportDir w) as [[e | []] w1] eqn:Hmk.
  { rewrite (events_of_run _ _ _ _ _
               (run_no_export_dir sourceDir exportDir quality targetExt w []
                  files e w1 Hdir Hsome Hmk)).
    rewrite (events_of_run _ _ _ _ _
               (jpeg_run_no_export_dir sourceDir exportDir quality w []
                  files e w1 Hdir Hsome Hmk)).
    split; [exists enc |]; apply sublist_nil_l. }
  rewrite (batch_run_events _ _ _ _ _ _ _ Hdir Hsome Hmk).
  rewrite (jpeg_batch_run_events _ _ _ _ _ _ Hdir Hsome Hmk).
  split; [exists enc |]; rewrite !encoder_calls_app; cbn [encoder_calls app];
    unfold summary_lines; cbn [encoder_calls]; rewrite app_nil_r.
  - apply (batch_encoder_calls _
             (fun file =>
                ({| input := Path.join sourceDir file; encoder := Some enc |},
                 MultiFormat.outputPath exportDir file targetExt))).
    intros file w'. by apply attempt_shape.
  - apply (batch_encoder_calls _
             (fun file =>
                ({| input := Path.join sourceDir file;
                    encoder := Some (JpegOptions quality true) |},
                 Path.join exportDir file))).
    intros file w'. apply jpeg_attempt_shape.
Qed.

(** Two images, a text file and a subdirectory with an image name: the
    encoder is given the two images and fails on the subdirectory. *)
Lemma encoder_only_on_discovered_files_example :
  let imageFiles :=
    List.filter image_pattern ["a.jpg"; "b.PNG"; "c.txt"; "album.png"] in
  (exists enc,
     encoder_calls
       (events
          (MultiFormat.compressImagesInDirectory (H := Toy.platform) "photos"
             "out" 80%float "webp") Toy.photos)
     `sublist_of`
     map (fun file =>
            ({| input := Path.join "photos" file; encoder := Some enc |},
             MultiFormat.outputPath "out" file "webp"))
       imageFiles)
  /\ encoder_calls
       (events
          (JpegOnly.compressImagesInDirectory (H := Toy.platform) "photos"
             "out" 80%float) Toy.photos)
     `sublist_of`
     map (fun file =>
            ({| input := Path.join "photos" file;
                encoder := Some (JpegOptions 80%float true) |},
             Path.join "out" file))
       imageFiles.
Proof.
  apply (encoder_only_on_discovered_files (H := Toy.platform) "photos" "out"
           80%float "webp" Toy.photos
           ["a.jpg"; "b.PNG"; "c.txt"; "album.png"]).
  vm_compute. reflexivity.
Defined.

(** X12: the lines a batch prints on the console are one line for each file
    that has a result, in the order of the files and with the sizes of that
    result, and then the five lines of the summary: a failed file prints no
    line, and there are as many per-file lines as successes.  This holds in
    both variants. *)
Theorem result_lines_are_the_successes `{Platform} sourceDir exportDir quality
    targetExt w files w1 :
  readdir sourceDir w = inr files ->
  List.filter image_pattern files <> [] ->
  ensureDir exportDir w = (inr tt, w1) ->
  let imageFiles := List.filter image_pattern files in
  let w2 := snd (now w1) in
  let printed compress run :=
    let results := attempts compress imageFiles w2 in
    List.filter is_console_log run
    = file_lines imageFiles results
      ++ summary_lines (length imageFiles)
           (total savedSize 0 (successes results))
           (total originalSize 0 (successes results)) (fst (now w1))
           (fst (now (world_after_all compress imageFiles w2)))
    /\ length (file_lines imageFiles results) = length (successes results) in
  printed (attempt sourceDir exportDir quality targetExt)
    (events
       (MultiFormat.compressImagesInDirectory sourceDir exportDir quality
          targetExt) w)
  /\ printed (jpeg_attempt sourceDir exportDir quality)
       (events (JpegOnly.compressImagesInDirectory sourceDir exportDir quality)
          w).
Proof.
  intros Hdir Hsome Hmk imageFiles w2 printed. subst printed. cbv beta zeta.
  destruct (target_selects quality targetExt) as [enc Hsel].
  rewrite (batch_run_events _ _ _ _ _ _ _ Hdir Hsome Hmk).
  rewrite (jpeg_batch_run_events _ _ _ _ _ _ Hdir Hsome Hmk).
  fold imageFiles w2.
  split; (split; [| apply file_lines_length]);
    rewrite !List.filter_app; cbn [List.filter is_console_log app];
    f_equal.
  - apply (batch_console_logs _
             (fun file =>
                ({| input := Path.join sourceDir file; encoder := Some enc |},
                 MultiFormat.outputPath exportDir file targetExt))).
    intros file w'. by apply attempt_shape.
  - apply (batch_console_logs _
             (fun file =>
                ({| input := Path.join sourceDir file;
                    encoder := Some (JpegOptions quality true) |},
                 Path.join exportDir file))).
    intros file w'. apply jpeg_attempt_shape.
Qed.

(** One file that compresses, one the codec rejects and one that is gone. *)
Lemma result_lines_example :
  let imageFiles := ["x.jpg"; "y.jpg"; "gone.jpg"] in
  let w1 := snd (Toy.toy_ensureDir "out" Cases.album) in
  let w2 := snd (Toy.toy_now w1) in
  let compress := attempt (H := Toy.platform) "pics" "out" 80%float "webp" in
  let results := attempts compress imageFiles w2 in
  List.filter is_console_log
    (events
       (MultiFormat.compressImagesInDirectory (H := Toy.platform) "pics" "out"
          80%float "webp") Cases.album)
  = file_lines imageFiles results
    ++ summary_lines 3
         (total savedSize 0 (successes results))
         (total originalSize 0 (successes results))
         (fst (Toy.toy_now w1))
         (fst (Toy.toy_now (world_after_all compress imageFiles w2)))
  /\ length (file_lines imageFiles results) = length (successes results).
Proof.
  refine (proj1 (result_lines_are_the_successes (H := Toy.platform) "pics"
                   "out" 80%float "webp" Cases.album
                   ["x.jpg"; "y.jpg"; "gone.jpg"]
                   (snd (Toy.toy_ensureDir "out" Cases.album)) _ _ _)).
  - vm_compute. reflexivity.
  - vm_compute. discriminate.
  - vm_compute. reflexivity.
Defined.

(** The run of the example, computed: what it prints and what it logs. *)
Example result_lines_computed :
  let run :=
    events
      (MultiFormat.compressImagesInDirectory (H := Toy.platform) "pics" "out"
         80%float "webp") Cases.album in
  List.filter is_console_log run
  = [ ConsoleLog "x.jpg: 4.00 MB -> 1.00 MB (saved 3.00 MB)";
      summary_header;
      ConsoleLog "Total Images: 3";
      ConsoleLog "Total Original Size: 4.00 MB";
      ConsoleLog "Total Saved Size: 3.00 MB (75.00% space saved)";
      ConsoleLog "Time Taken: 0.25 seconds" ]
  /\ List.filter is_error_log run
     = [ ConsoleError "Error compressing pics/y.jpg:"
           (Error "Input file contains unsupported image format");
         ConsoleError "Error compressing pics/gone.jpg:"
           (Error "ENOENT: no such file or directory, stat pics/gone.jpg") ]
  /\ encoder_calls run
     = [ ({| input := "pics/x.jpg"; encoder := Some (WebpOptions 80%float) |},
          "out/x.webp");
         ({| input := "pics/y.jpg"; encoder := Some (WebpOptions 80%float) |},
          "out/y.webp") ].
Proof. vm_compute. repeat split; reflexivity. Qed.

(** X13: every discovered file is accounted for exactly once: in a batch the
    number of error logs and the number of successful results add up to the
    number of discovered files, so a file that has no result has one error
    log and a file that has a result has none.  This holds in both
    variants. *)
Theorem every_file_is_accounted_for `{Platform} sourceDir exportDir quality
    targetExt w files w1 :
  readdir sourceDir w = inr files ->
  List.filter image_pattern files <> [] ->
  ensureDir exportDir w = (inr tt, w1) ->
  let imageFiles := List.filter image_pattern files in
  let w2 := snd (now w1) in
  let accounted compress run :=
    (length (List.filter is_error_log run)
     + length (successes (attempts compress imageFiles w2)))%nat
    = length imageFiles in
  accounted (attempt sourceDir exportDir quality targetExt)
    (events
       (MultiFormat.compressImagesInDirectory sourceDir exportDir quality
          targetExt) w)
  /\ accounted (jpeg_attempt sourceDir exportDir quality)
       (events (JpegOnly.compressImagesInDirectory sourceDir exportDir quality)
          w).
Proof.
  intros Hdir Hsome Hmk imageFiles w2 accounted. subst accounted. cbv beta.
  split; [by apply every_file_logged |].
  rewrite (jpeg_batch_run_events _ _ _ _ _ _ Hdir Hsome Hmk).
  fold imageFiles w2.
  rewrite !List.filter_app; unfold summary_lines;
    cbn [List.filter is_error_log app]; rewrite app_nil_r.
  apply (batch_error_logs _
           (fun file =>
              ({| input := Path.join sourceDir file;
                  encoder := Some (JpegOptions quality true) |},
               Path.join exportDir file))).
  intros file w'. apply jpeg_attempt_shape.
Qed.

(** One success and two failures among three files. *)
Lemma every_file_is_accounted_for_example :
  let imageFiles := ["x.jpg"; "y.jpg"; "gone.jpg"] in
  let w2 :=
    snd (Toy.toy_now (snd (Toy.toy_ensureDir "out" Cases.album))) in
  (length
     (List.filter is_error_log
        (events
           (MultiFormat.compressImagesInDirectory (H := Toy.platform) "pics"
              "out" 80%float "webp") Cases.album))
   + length
       (successes
          (attempts (attempt (H := Toy.platform) "pics" "out" 80%float "webp")
             imageFiles w2)))%nat
  = 3%nat.
Proof.
  refine (proj1 (every_file_is_accounted_for (H := Toy.platform) "pics"
                   "out" 80%float "webp" Cases.album
                   ["x.jpg"; "y.jpg"; "gone.jpg"]
                   (snd (Toy.toy_ensureDir "out" Cases.album)) _ _ _)).
  - vm_compute. reflexivity.
  - vm_compute. discriminate.
  - vm_compute. reflexivity.
Defined.

(** X14: a batch attempts every discovered file once, in the order of the
    listing: the texts the spinner is given are [Compressing <file>...] for
    the discovered files in that order, whether the files then compress or
    fail.  This holds in both variants. *)
Theorem files_attempted_in_listing_order `{Platform} sourceDir exportDir
    quality targetExt w files w1 :
  readdir sourceDir w = inr files ->
  List.filter image_pattern files <> [] ->
  ensureDir exportDir w = (inr tt, w1) ->
  let announced :=
    map (fun file => SpinnerText ("Compressing " +:+ file +:+ "..."))
      (List.filter image_pattern files) in
  List.filter is_spinner_text
    (events
       (MultiFormat.compressImagesInDirectory sourceDir exportDir quality
          targetExt) w)
  = announced
  /\ List.filter is_spinner_text
       (events (JpegOnly.compressImagesInDirectory sourceDir exportDir quality)
          w)
     = announced.
Proof.
  intros Hdir Hsome Hmk announced. subst announced.
  destruct (target_selects quality targetExt) as [enc Hsel].
  rewrite (batch_run_events _ _ _ _ _ _ _ Hdir Hsome Hmk).
  rewrite (jpeg_batch_run_events _ _ _ _ _ _ Hdir Hsome Hmk).
  split; rewrite !List.filter_app; unfold summary_lines;
    cbn [List.filter is_spinner_text app]; rewrite app_nil_r.
  - apply (batch_spinner_texts _
             (fun file =>
                ({| input := Path.join sourceDir file; encoder := Some enc |},
                 MultiFormat.outputPath exportDir file targetExt))).
    intros file w'. by apply attempt_shape.
  - apply (batch_spinner_texts _
             (fun file =>
                ({| input := Path.join sourceDir file;
                    encoder := Some (JpegOptions quality true) |},
                 Path.join exportDir file))).
    intros file w'. apply jpeg_attempt_shape.
Qed.

(** The listing of the example holds a text file between the images. *)
Lemma files_attempted_example :
  let announced :=
    [ SpinnerText "Compressing a.jpg..."; SpinnerText "Compressing b.PNG...";
      SpinnerText "Compressing album.png..." ] in
  List.filter is_spinner_text
    (events
       (MultiFormat.compressImagesInDirectory (H := Toy.platform) "photos"
          "out" 80%float "webp") Toy.photos)
  = announced
  /\ List.filter is_spinner_text
       (events
          (JpegOnly.compressImagesInDirectory (H := Toy.platform) "photos"
             "out" 80%float) Toy.photos)
     = announced.
Proof.
  apply (files_attempted_in_listing_order (H := Toy.platform) "photos" "out"
           80%float "webp" Toy.photos
           ["a.jpg"; "b.PNG"; "c.txt"; "album.png"]
           (snd (Toy.toy_ensureDir "out" Toy.photos))).
  - vm_compute. reflexivity.
  - vm_compute. discriminate.
  - vm_compute. reflexivity.
Defined.

(** X15: with a target extension the switch has no case for, a whole run of
    the multi-format variant encodes nothing and writes no file: the encoder
    is never called, every discovered file is logged as an error, and the
    world at the end is the one [ensureDir] left, but for the two readings of
    the clock.  The export directory is made all the same. *)
Theorem unsupported_target_writes_nothing `{Platform} sourceDir exportDir
    quality targetExt w tr files w1 :
  unsupported targetExt ->
  readdir sourceDir w = inr files ->
  List.filter image_pattern files <> [] ->
  ensureDir exportDir w = (inr tt, w1) ->
  let call :=
    MultiFormat.compressImagesInDirectory sourceDir exportDir quality
      targetExt in
  encoder_calls (events call w) = []
  /\ length (List.filter is_error_log (events call w))
     = length (List.filter image_pattern files)
  /\ world (snd (call (State w tr))) = snd (now (snd (now w1)))
  /\ EnsureDir exportDir ∈ events call w.
Proof.
  intros Hun Hdir Hsome Hmk call. subst call.
  destruct (unsupported_batch sourceDir exportDir quality targetExt
              (List.filter image_pattern files) Hun 0%nat (snd (now w1)))
    as (Hnone & Hworld & Hcalls).
  split; [| split; [| split]].
  - rewrite (batch_run_events _ _ _ _ _ _ _ Hdir Hsome Hmk).
    rewrite !encoder_calls_app, Hcalls. reflexivity.
  - pose proof (every_file_logged sourceDir exportDir quality targetExt w
                  files w1 Hdir Hsome Hmk) as Hcount.
    cbv zeta in Hcount. rewrite Hnone in Hcount. cbn [length] in Hcount. lia.
  - rewrite (run_batch _ _ _ _ _ _ _ _ Hdir Hsome Hmk). cbn [snd world].
    by rewrite Hworld.
  - rewrite (batch_run_events _ _ _ _ _ _ _ Hdir Hsome Hmk).
    apply list_elem_of_here.
Qed.

(** The target [gif]. *)
Lemma unsupported_target_run_example :
  let call :=
    MultiFormat.compressImagesInDirectory (H := Toy.platform) "photos" "out"
      80%float "gif" in
  encoder_calls (events call Toy.photos) = []
  /\ length (List.filter is_error_log (events call Toy.photos))
     = length
         (List.filter image_pattern ["a.jpg"; "b.PNG"; "c.txt"; "album.png"])
  /\ world (snd (call (Toy.start Toy.photos)))
     = snd (Toy.toy_now
              (snd (Toy.toy_now (snd (Toy.toy_ensureDir "out" Toy.photos)))))
  /\ EnsureDir "out" ∈ events call Toy.photos.
Proof.
  apply (unsupported_target_writes_nothing (H := Toy.platform) "photos" "out"
           80%float "gif" Toy.photos []
           ["a.jpg"; "b.PNG"; "c.txt"; "album.png"]
           (snd (Toy.toy_ensureDir "out" Toy.photos))).
  - unfold unsupported. vm_compute. intros Hin.
    repeat (apply elem_of_cons in Hin as [Heq | Hin]; [discriminate |]).
    by apply elem_of_nil in Hin.
  - vm_compute. reflexivity.
  - vm_compute. discriminate.
  - vm_compute. reflexivity.
Defined.

(** X16: nothing is encoded before the export directory is there: a run that
    calls the encoder has listed the source directory, found an image and
    made the export directory without error, and the attempt to make it is
    the first call of the run.  This holds in both variants. *)
Theorem encoding_follows_ensured_export_dir `{Platform} sourceDir exportDir
    quality targetExt w :
  let guarded run :=
    (exists image out, ToFile image out ∈ run) ->
    (exists files, readdir sourceDir w = inr files
                   /\ List.filter image_pattern files <> [])
    /\ fst (ensureDir exportDir w) = inr tt
    /\ head run = Some (EnsureDir exportDir) in
  guarded
    (events
       (MultiFormat.compressImagesInDirectory sourceDir exportDir quality
          targetExt) w)
  /\ guarded
       (events (JpegOnly.compressImagesInDirectory sourceDir exportDir quality)
          w).
Proof.
  intros guarded. subst guarded. cbv beta.
  destruct (readdir sourceDir w) as [e | files] eqn:Hdir.
  { rewrite (events_of_run _ _ _ _ _
               (run_unreadable sourceDir exportDir quality targetExt w [] e Hdir)).
    rewrite (events_of_run _ _ _ _ _
               (jpeg_run_unreadable sourceDir exportDir quality w [] e Hdir)).
    split; intros (image & out & Hin); calls_in Hin. }
  destruct (decide (List.filter image_pattern files = [])) as [Hnone | Hsome].
  { rewrite (events_of_run _ _ _ _ _
               (run_no_images sourceDir exportDir quality targetExt w [] files
                  Hdir Hnone)).
    rewrite (events_of_run _ _ _ _ _
               (jpeg_run_no_images sourceDir exportDir quality w [] files
                  Hdir Hnone)).
    split; intros (image & out & Hin); calls_in Hin. }
  destruct (ensureDir exportDir w) as [[e | []] w1] eqn:Hmk.
  { rewrite (events_of_run _ _ _ _ _
               (run_no_export_dir sourceDir exportDir quality targetExt w []
                  files e w1 Hdir Hsome Hmk)).
    rewrite (events_of_run _ _ _ _ _
               (jpeg_run_no_export_dir sourceDir exportDir quality w []
                  files e w1 Hdir Hsome Hmk)).
    split; intros (image & out & Hin); calls_in Hin. }
  rewrite (batch_run_events _ _ _ _ _ _ _ Hdir Hsome Hmk).
  rewrite (jpeg_batch_run_events _ _ _ _ _ _ Hdir Hsome Hmk).
  split; intros _; eauto.
Qed.

(** ** Where the output goes *)

Section JoinFacts.

Lemma string_app_assoc (a b c : string) : (a +:+ b) +:+ c = a +:+ (b +:+ c).
Proof.
  induction a as [| x a IH]; [reflexivity |].
  by rewrite !app_cons_start, IH.
Qed.

Lemma string_app_not_empty (a b : string) : b <> "" -> a +:+ b <> "".
Proof. destruct a; [by rewrite app_nil_start | by rewrite app_cons_start]. Qed.

(** A slash ends a segment and starts the next. *)
Lemma split_go_app (cur a b : string) :
  Path.split_go cur (a +:+ "/" +:+ b)
  = Path.split_go cur a ++ Path.split_go "" b.
Proof.
  revert cur. induction a as [| c a IH]; intros cur; [reflexivity |].
  rewrite app_cons_start. cbn [Path.split_go].
  case_bool_decide; by rewrite IH.
Qed.

Lemma split_slash_free (name : string) :
  slash_free name -> Path.split name = [name].
Proof. intros Hfree. unfold Path.split. by rewrite split_go_slash_free. Qed.

(** The segments before the last one leave a stack, whatever follows. *)
Lemma normalize_segments_app (allow : bool) (segs : list string) :
  forall stack, exists stack',
    forall rest,
      Path.normalize_segments allow stack (segs ++ rest)
      = Path.normalize_segments allow stack' rest.
Proof.
  induction segs as [| seg segs IH]; intros stack; [by exists stack |].
  cbn [app Path.normalize_segments].
  destruct (bool_decide (seg = "") || bool_decide (seg = ".")); [apply IH |].
  destruct (bool_decide (seg = "..")); [| apply IH].
  destruct stack as [| top below]; [apply IH |].
  destruct (bool_decide (top = "..")); apply IH.
Qed.

Lemma normalize_segments_name (allow : bool) (stack : list string)
    (name : string) :
  name <> "" -> name <> "." -> name <> ".." ->
  Path.normalize_segments allow stack [name] = rev stack ++ [name].
Proof.
  intros Hempty Hdot Hdots. cbn [Path.normalize_segments].
  rewrite !bool_decide_eq_false_2 by done. reflexivity.
Qed.

Lemma join_segments_snoc (l : list string) (name : string) :
  Path.join_segments (l ++ [name])
  = match l with [] => "" | _ => Path.join_segments l +:+ "/" end +:+ name.
Proof.
  induction l as [| x l IH]; [reflexivity |].
  cbn [app]. destruct l as [| y l].
  { cbn [app Path.join_segments]. by rewrite string_app_assoc. }
  change (Path.join_segments (x :: (y :: l) ++ [name]))
    with (x +:+ "/" +:+ Path.join_segments ((y :: l) ++ [name])).
  rewrite IH.
  change (Path.join_segments (x :: y :: l))
    with (x +:+ "/" +:+ Path.join_segments (y :: l)).
  by rewrite !string_app_assoc.
Qed.

Lemma rev_app_app (x y acc : string) :
  String.rev_app (x +:+ y) acc = String.rev_app y (String.rev_app x acc).
Proof.
  revert acc. induction x as [| c x IH]; intros acc; [reflexivity |].
  rewrite app_cons_start. cbn [String.rev_app]. apply IH.
Qed.

Lemma rev_app_no_slash (name acc : string) :
  slash_free name ->
  name <> "" \/ Path.starts_with_slash acc = false ->
  Path.starts_with_slash (String.rev_app name acc) = false.
Proof.
  unfold slash_free. revert acc.
  induction name as [| c name IH]; intros acc Hfree Hstart.
  { by destruct Hstart. }
  cbn in Hfree. apply orb_false_iff in Hfree as [Hc Hfree].
  cbn [String.rev_app]. apply IH; [exact Hfree |]. right. exact Hc.
Qed.

(** A path that ends with a name does not end with a slash. *)
Lemma ends_with_slash_name (a name : string) :
  slash_free name -> name <> "" -> Path.ends_with_slash (a +:+ name) = false.
Proof.
  intros Hfree Hname. unfold Path.ends_with_slash, String.rev.
  rewrite rev_app_app. apply rev_app_no_slash; auto.
Qed.

Lemma starts_with_slash_app (a b : string) :
  a <> "" -> Path.starts_with_slash (a +:+ b) = Path.starts_with_slash a.
Proof. by destruct a. Qed.

Lemma starts_with_slash_name (name : string) :
  slash_free name -> Path.starts_with_slash name = false.
Proof.
  unfold slash_free. destruct name as [| c name]; [done |].
  cbn. by intros [Hc _]%orb_false_iff.
Qed.

(** [path.join] of a directory and a name: the name, behind a prefix that
    the directory alone decides. *)
Lemma join_child (dir : string) :
  exists prefix,
    (prefix = "" \/ exists d, prefix = d +:+ "/")
    /\ forall name,
         slash_free name -> name <> "" -> name <> "." -> name <> ".." ->
         Path.join dir name = prefix +:+ name.
Proof.
  unfold Path.join. case_bool_decide as Hdir.
  - exists "". split; [by left |]. intros name Hfree Hempty Hdot Hdots.
    unfold Path.normalize. rewrite bool_decide_eq_false_2 by done.
    rewrite starts_with_slash_name by done.
    pose proof (ends_with_slash_name "" name Hfree Hempty) as Hend.
    rewrite app_nil_start in Hend. rewrite Hend.
    rewrite split_slash_free by done.
    rewrite normalize_segments_name by done. cbn [rev app Path.join_segments].
    by rewrite bool_decide_eq_false_2.
  - destruct (normalize_segments_app (negb (Path.starts_with_slash dir))
                (Path.split dir) []) as [stack Hstack].
    exists ((if Path.starts_with_slash dir then "/" else "")
            +:+ match rev stack with
                | [] => ""
                | _ => Path.join_segments (rev stack) +:+ "/"
                end).
    split.
    { destruct (Path.starts_with_slash dir), (rev stack) as [| x l].
      - right. by exists "".
      - right. exists ("/" +:+ Path.join_segments (x :: l)).
        by rewrite string_app_assoc.
      - by left.
      - right. by eexists. }
    intros name Hfree Hempty Hdot Hdots.
    rewrite (bool_decide_eq_false_2 (name = "")) by done.
    unfold Path.normalize.
    rewrite bool_decide_eq_false_2
      by (apply string_app_not_empty; by destruct name).
    rewrite starts_with_slash_app by done.
    rewrite <- (string_app_assoc dir "/" name).
    rewrite ends_with_slash_name by done.
    rewrite (string_app_assoc dir "/" name).
    unfold Path.split. rewrite split_go_app. fold (Path.split dir).
    rewrite (split_go_slash_free name "") by done. cbn [String.rev_app].
    rewrite Hstack, normalize_segments_name by done.
    rewrite join_segments_snoc.
    rewrite bool_decide_eq_false_2 by (by apply string_app_not_empty).
    destruct (Path.starts_with_slash dir); by rewrite ?string_app_assoc.
Qed.

(** The last segment of a name behind a directory prefix is the name. *)
Lemma base_child (prefix name : string) :
  prefix = "" \/ (exists d, prefix = d +:+ "/") ->
  slash_free name -> name <> "" -> Path.base (prefix +:+ name) = name.
Proof.
  intros [-> | [d ->]] Hfree Hname.
  { rewrite app_nil_start. by apply base_slash_free. }
  rewrite string_app_assoc. unfold Path.base, Path.split.
  rewrite split_go_app, (split_go_slash_free name "") by done.
  cbn [String.rev_app]. rewrite rev_app_distr. cbn [rev app].
  by rewrite filter_cons_True.
Qed.

End JoinFacts.

Section NameFacts.

(** Only the slash lower-cases to the slash. *)
Lemma lower_char_slash (c : ascii) :
  Js.lower_char c = Path.slash -> c = Path.slash.
Proof.
  assert (Htable :
    forallb (fun c =>
      implb (bool_decide (Js.lower_char c = Path.slash))
        (bool_decide (c = Path.slash)))
      all_ascii = true) by (vm_compute; reflexivity).
  rewrite forallb_forall in Htable. specialize (Htable c (ascii_in_all c)).
  intros Heq. rewrite (bool_decide_eq_true_2 _ Heq) in Htable.
  by apply (bool_decide_eq_true (c = Path.slash)).
Qed.

Lemma contains_slash_lower (s : string) :
  contains Path.slash (Js.toLowerCase s) = contains Path.slash s.
Proof.
  induction s as [| c s IH]; [reflexivity |].
  cbn. rewrite IH. f_equal. apply bool_decide_ext. split.
  - apply lower_char_slash.
  - by intros ->.
Qed.

(** A recognized extension holds no slash. *)
Lemma recognized_slash_free (ext : string) :
  Js.toLowerCase ext ∈ recognized -> slash_free ext.
Proof.
  intros Hext. unfold slash_free. rewrite <- contains_slash_lower.
  revert Hext. unfold recognized. rewrite !elem_of_cons, elem_of_nil.
  intros [Heq | [Heq | [Heq | [Heq | []]]]]; by rewrite Heq.
Qed.

Lemma before_last_dot_contains (c : ascii) (b pre : string) :
  Path.before_last_dot b = Some pre ->
  contains c b = false -> contains c pre = false.
Proof.
  revert pre. induction b as [| x b IH]; intros pre; [discriminate |].
  cbn. intros Hpre [Hx Hb]%orb_false_iff.
  destruct (Path.before_last_dot b) as [pre' |].
  - injection Hpre as <-. cbn. by rewrite Hx, (IH pre').
  - match type of Hpre with
    | context [bool_decide ?P] => destruct (bool_decide P)
    end; [| discriminate].
    by injection Hpre as <-.
Qed.

(** The name of an entry without its extension holds no slash. *)
Lemma parse_name_slash_free (file : string) :
  slash_free file -> slash_free (Path.parse_name file).
Proof.
  intros Hfree. unfold Path.parse_name. rewrite base_slash_free by done.
  destruct (Path.before_last_dot file) as [pre |] eqn:Hpre; [| done].
  destruct (bool_decide (pre = "") || bool_decide (file = "..")); [done |].
  by apply (before_last_dot_contains _ file).
Qed.

(** A name with a recognized extension is a name to join: not empty and
    neither [.] nor [..]. *)
Lemma extension_name_valid (stem ext : string) :
  Js.toLowerCase ext ∈ recognized ->
  let name := stem +:+ "." +:+ ext in
  name <> "" /\ name <> "." /\ name <> "..".
Proof.
  intros [Hdot Hne]%recognized_dot_free name. subst name.
  destruct ext as [| e ext]; [done |]. cbn in Hdot.
  apply orb_false_iff in Hdot as [He _]. apply bool_decide_eq_false in He.
  destruct stem as [| a [| b stem]]; repeat split; try discriminate;
    rewrite ?app_cons_start, ?app_nil_start; intros [=]; subst; try done.
  all: by destruct stem.
Qed.

End NameFacts.

(** X18: every file a run writes lies directly in one directory that the
    export directory alone decides.  The destination of a file is a prefix,
    empty or ending in a slash and the same for all files, both variants and
    every supported target, followed by the name to write, which holds no
    slash: in the multi-format variant the name of the entry without its
    extension, a dot and the target extension; in the JPEG-only variant the
    name of the entry.  No entry name and no target extension moves an
    output into another directory. *)
Theorem outputs_share_one_directory (exportDir : string) :
  exists prefix,
    (prefix = "" \/ exists dir, prefix = dir +:+ "/")
    /\ (forall file targetExt,
          slash_free file -> Js.toLowerCase targetExt ∈ recognized ->
          let name := Path.parse_name file +:+ "." +:+ targetExt in
          slash_free name
          /\ MultiFormat.outputPath exportDir file targetExt
             = prefix +:+ name)
    /\ (forall file,
          slash_free file -> image_pattern file = true ->
          Path.join exportDir file = prefix +:+ file).
Proof.
  destruct (join_child exportDir) as (prefix & Hprefix & Hjoin).
  exists prefix. split; [exact Hprefix |]. split.
  - intros file targetExt Hfree Hext name.
    assert (Hname : slash_free name).
    { subst name. unfold slash_free. rewrite !contains_app.
      rewrite (parse_name_slash_free file Hfree).
      by rewrite (recognized_slash_free targetExt Hext). }
    split; [exact Hname |].
    destruct (extension_name_valid (Path.parse_name file) targetExt Hext)
      as (Hempty & Hdot & Hdots).
    by apply Hjoin.
  - intros file Hfree [stem [ext [-> Hext]]]%image_pattern_extension.
    destruct (extension_name_valid stem ext Hext) as (Hempty & Hdot & Hdots).
    by apply Hjoin.
Qed.

(** An export directory written with dots and doubled slashes. *)
Example outputs_directory_computed :
  map (fun file => MultiFormat.outputPath "./exports//2024/../" file "webp")
    ["a.jpg"; "b.c.PNG"; ".jpg"]
  = ["exports/a.webp"; "exports/b.c.webp"; "exports/.jpg.webp"]
  /\ map (Path.join "/srv/./out/") ["a.jpg"; "b.c.PNG"; ".jpg"]
     = ["/srv/out/a.jpg"; "/srv/out/b.c.PNG"; "/srv/out/.jpg"].
Proof. split; vm_compute; reflexivity. Qed.

(** X17: every name the multi-format variant writes is one Discovery
    accepts.  When the encoder is called for a file, the path it writes is
    the export directory joined with the name of the file without its
    extension, a dot and the target extension; that name matches the pattern
    of Discovery, so Discovery keeps it from any listing that holds it; and
    for an entry name, which holds no slash, it is the last segment of the
    path written.  What a later listing of the export directory holds is up
    to the file system and is not part of the statement. *)
Theorem outputs_are_discoverable `{Platform} sourceDir exportDir quality
    targetExt file w image out :
  ToFile image out
  ∈ events (attempt sourceDir exportDir quality targetExt file) w ->
  let name := Path.parse_name file +:+ "." +:+ targetExt in
  out = Path.join exportDir name
  /\ image_pattern name = true
  /\ (forall listing,
        name ∈ listing -> name ∈ List.filter image_pattern listing)
  /\ (slash_free file -> Path.base out = name).
Proof.
  intros Hin name. subst name.
  assert (Hout : out = Path.join exportDir
                         (Path.parse_name file +:+ "." +:+ targetExt))
    by (by apply compressImage_destination in Hin).
  assert (Hext : Js.toLowerCase targetExt ∈ recognized).
  { destruct (switch_cases targetExt) as [Hext | Hun].
    - unfold recognized. rewrite !elem_of_cons.
      destruct Hext as [[? | ?] | [? | ?]]; auto 6.
    - unfold events, run, attempt in Hin.
      rewrite (compressImage_unsupported _ _ _ _ _ _ Hun) in Hin.
      cbn in Hin. calls_in Hin. }
  assert (Hname :
    image_pattern (Path.parse_name file +:+ "." +:+ targetExt) = true).
  { apply image_pattern_extension. by exists (Path.parse_name file), targetExt. }
  split; [exact Hout |]. split; [exact Hname |]. split.
  - intros listing Hlisted. apply list_elem_of_In, filter_In.
    split; [by apply list_elem_of_In | exact Hname].
  - intros Hfree. rewrite Hout.
    destruct (join_child exportDir) as (prefix & Hprefix & Hjoin).
    destruct (extension_name_valid (Path.parse_name file) targetExt Hext)
      as (Hempty & Hdot & Hdots).
    assert (Hslash :
      slash_free (Path.parse_name file +:+ "." +:+ targetExt)).
    { unfold slash_free. rewrite !contains_app.
      rewrite (parse_name_slash_free file Hfree).
      by rewrite (recognized_slash_free targetExt Hext). }
    rewrite Hjoin by done. by apply base_child.
Qed.

(** A PNG written as [b.WEBP]. *)
Lemma outputs_are_discoverable_example :
  let name := Path.parse_name "b.PNG" +:+ "." +:+ "WEBP" in
  "out/b.WEBP" = Path.join "out" name
  /\ image_pattern name = true
  /\ (forall listing,
        name ∈ listing -> name ∈ List.filter image_pattern listing)
  /\ (slash_free "b.PNG" -> Path.base "out/b.WEBP" = name).
Proof.
  apply (outputs_are_discoverable (H := Toy.platform) "photos" "out" 80%float
           "WEBP" "b.PNG" Toy.photos
           {| input := "photos/b.PNG"; encoder := Some (WebpOptions 80%float) |}
           "out/b.WEBP").
  vm_compute. apply list_elem_of_here.
Defined.
